(** * PII detector and redactor: a shallow embedding of
      [detector_full_anmol_vishwakarma.py]

    The development follows the Python module top to bottom: the text
    primitives the module relies on ([str] slicing, indexing, [split],
    [join], [upper], [re.fullmatch]), the pattern table, the two key
    lists, the redaction transforms with their dispatch table, and
    [process_record].  Exceptions are explicit: a computation returns
    [Ok v] or [Raise e].

    Text model.  A Python [str] is a Rocq [string]; its characters are
    the code points U+0000..U+00FF.  The character classes below
    ([isspace], [\d], [\w]) are Python's, restricted to that range. *)

From Stdlib Require Import String Ascii List ZArith DecimalString Lia Bool
  Permutation PeanoNat.
Import ListNotations.

Open Scope list_scope.
Open Scope string_scope.

(** ** Exceptions *)

Inductive exn : Type :=
| IndexError
| ValueError.

Inductive result (A : Type) : Type :=
| Ok (a : A)
| Raise (e : exn).

Arguments Ok {A} a.
Arguments Raise {A} e.

Definition bind {A B : Type} (m : result A) (k : A -> result B) : result B :=
  match m with
  | Ok a => k a
  | Raise e => Raise e
  end.

Notation "x <- m ;; k" := (bind m (fun x => k))
  (at level 61, m at next level, right associativity).

(** [try: body except ValueError: handler] *)
Definition try_except_ValueError {A : Type} (body : result A) (handler : result A)
  : result A :=
  match body with
  | Raise ValueError => handler
  | other => other
  end.

(** ** Python string primitives *)

Module Py.

(** [c * n] for a one-character string [c]; a non-positive count gives
    the empty string, which is what truncated subtraction on [nat]
    computes for [len(s) - k]. *)
Fixpoint repeat_char (c : ascii) (n : nat) : string :=
  match n with
  | O => EmptyString
  | S n' => String c (repeat_char c n')
  end.

(** [s[:n]] *)
Fixpoint take (n : nat) (s : string) : string :=
  match n, s with
  | S n', String c t => String c (take n' t)
  | _, _ => EmptyString
  end.

(** [s[n:]] *)
Fixpoint drop (n : nat) (s : string) : string :=
  match n, s with
  | S n', String _ t => drop n' t
  | _, _ => s
  end.

(** [s[-n:]] for [n > 0]: the last [n] characters, the whole string
    when it is shorter. *)
Definition suffix (n : nat) (s : string) : string :=
  drop (String.length s - n) s.

(** [s[0]] *)
Definition first (s : string) : result ascii :=
  match s with
  | String c _ => Ok c
  | EmptyString => Raise IndexError
  end.

(** [s[-1]] *)
Fixpoint last (s : string) : result ascii :=
  match s with
  | EmptyString => Raise IndexError
  | String c EmptyString => Ok c
  | String _ t => last t
  end.

(** [c in s] for a one-character string [c]. *)
Fixpoint contains (c : ascii) (s : string) : bool :=
  match s with
  | EmptyString => false
  | String a t => Ascii.eqb a c || contains c t
  end.

(** [s.split(sep)] for a one-character separator: always at least one
    piece, one more than the number of separators. *)
Fixpoint split (sep : ascii) (s : string) : list string :=
  match s with
  | EmptyString => [EmptyString]
  | String c t =>
      if Ascii.eqb c sep then EmptyString :: split sep t
      else match split sep t with
           | piece :: rest => String c piece :: rest
           | [] => [String c EmptyString]
           end
  end.

Definition code (c : ascii) : nat := nat_of_ascii c.

Definition in_range (lo hi : nat) (c : ascii) : bool :=
  Nat.leb lo (code c) && Nat.leb (code c) hi.

(** [str.isspace] on U+0000..U+00FF: TAB LF VT FF CR, the separators
    U+001C..U+001F, SPACE, NEL (U+0085) and NBSP (U+00A0). *)
Definition isspace (c : ascii) : bool :=
  in_range 9 13 c || in_range 28 32 c || Nat.eqb (code c) 133 || Nat.eqb (code c) 160.

(** [s.split()]: the maximal runs of non-whitespace characters. *)
Fixpoint split_ws (s : string) : list string :=
  match s with
  | EmptyString => []
  | String c t =>
      if isspace c then split_ws t
      else match t with
           | EmptyString => [String c EmptyString]
           | String c' _ =>
               if isspace c' then String c EmptyString :: split_ws t
               else match split_ws t with
                    | tok :: rest => String c tok :: rest
                    | [] => [String c EmptyString]
                    end
           end
  end.

(** [sep.join(pieces)] *)
Definition join (sep : string) (pieces : list string) : string :=
  String.concat sep pieces.

Definition is_lower (c : ascii) : bool := in_range 97 122 c.
Definition is_upper (c : ascii) : bool := in_range 65 90 c.
Definition is_digit (c : ascii) : bool := in_range 48 57 c.

Definition upper_char (c : ascii) : ascii :=
  if is_lower c then ascii_of_nat (code c - 32) else c.

(** [s.upper()] on the letters a-z.  [process_record] only ever
    upper-cases one of its own nine key names, all of them ASCII. *)
Fixpoint upper (s : string) : string :=
  match s with
  | EmptyString => EmptyString
  | String c t => String (upper_char c) (upper t)
  end.

End Py.

(** ** Regular expressions: the fragment of [re] used by the pattern table *)

Module Re.

Inductive regex : Type :=
| Class (p : ascii -> bool)                       (* [...] , \d , \s , one literal *)
| WordBoundary                                    (* \b *)
| Cat (r1 r2 : regex)                             (* r1 r2 *)
| Repeat (r : regex) (lo : nat) (hi : option nat). (* r{lo,hi} ; hi = None: no upper bound *)

Definition literal (c : ascii) : regex := Class (Ascii.eqb c).
Definition plus (r : regex) : regex := Repeat r 1 None.
Definition exactly (n : nat) (r : regex) : regex := Repeat r n (Some n).

(** [\w] of a [str] pattern on U+0000..U+00FF: [str.isalnum] or an
    underscore. *)
Definition is_word (c : ascii) : bool :=
  Py.is_digit c || Py.is_upper c || Py.is_lower c || Nat.eqb (Py.code c) 95
  || Nat.eqb (Py.code c) 170 || Py.in_range 178 179 c || Nat.eqb (Py.code c) 181
  || Py.in_range 185 186 c || Py.in_range 188 190 c
  || Py.in_range 192 214 c || Py.in_range 216 246 c || Py.in_range 248 255 c.

(** A matcher position: the character just before it (if any) and the
    input still to be read. *)
Definition state : Type := option ascii * string.

Definition word_before (st : state) : bool :=
  match fst st with
  | Some c => is_word c
  | None => false
  end.

Definition word_after (st : state) : bool :=
  match snd st with
  | String c _ => is_word c
  | EmptyString => false
  end.

Definition at_boundary (st : state) : bool :=
  xorb (word_before st) (word_after st).

(** [times n f x]: [f] applied [n] times. *)
Fixpoint times {A : Type} (n : nat) (f : A -> A) (x : A) : A :=
  match n with
  | O => x
  | S n' => times n' f (f x)
  end.

(** The positions reached after zero up to [extra] further rounds of [f]. *)
Fixpoint upto (extra : nat) (f : list state -> list state) (sts : list state)
  : list state :=
  (sts ++ match extra with
          | O => []
          | S e => upto e f (f sts)
          end)%list.

(** [run r st]: every position the matcher can reach by matching [r]
    from [st], backtracking included.  An unbounded repetition is cut
    after as many extra rounds as there are characters left: a round
    that reads nothing reaches nothing new. *)
Fixpoint run (r : regex) (st : state) : list state :=
  match r with
  | Class p =>
      match snd st with
      | String c t => if p c then [(Some c, t)] else []
      | EmptyString => []
      end
  | WordBoundary => if at_boundary st then [st] else []
  | Cat r1 r2 => flat_map (run r2) (run r1 st)
  | Repeat r' lo hi =>
      let round := flat_map (run r') in
      let extra := match hi with
                   | Some h => h - lo
                   | None => String.length (snd st)
                   end in
      upto extra round (times lo round [st])
  end.

Definition at_end (st : state) : bool :=
  match snd st with
  | EmptyString => true
  | String _ _ => false
  end.

(** [pattern.fullmatch(s)] as a truth value: some way of matching
    reads the whole of [s]. *)
Definition fullmatch (pattern : regex) (s : string) : bool :=
  existsb at_end (run pattern (None, s)).

End Re.

(** ** The module's tables *)

Definition one_of (chars : string) (c : ascii) : bool := Py.contains c chars.

Definition alnum (c : ascii) : bool :=
  Py.is_lower c || Py.is_upper c || Py.is_digit c.

Definition alpha (c : ascii) : bool := Py.is_lower c || Py.is_upper c.

(** [[a-zA-Z0-9._%+-]] *)
Definition local_class (c : ascii) : bool := alnum c || one_of "._%+-" c.

(** [[a-zA-Z0-9.-]] *)
Definition domain_class (c : ascii) : bool := alnum c || one_of ".-" c.

Definition phone_pattern : Re.regex :=
  Re.Cat Re.WordBoundary (Re.Cat (Re.exactly 10 (Re.Class Py.is_digit)) Re.WordBoundary).

Definition aadhar_pattern : Re.regex :=
  Re.Cat Re.WordBoundary (Re.Cat (Re.exactly 12 (Re.Class Py.is_digit)) Re.WordBoundary).

Definition passport_pattern : Re.regex :=
  Re.Cat Re.WordBoundary
    (Re.Cat (Re.exactly 1 (Re.Class Py.is_upper))
       (Re.Cat (Re.exactly 7 (Re.Class Py.is_digit)) Re.WordBoundary)).

Definition upi_id_pattern : Re.regex :=
  Re.Cat Re.WordBoundary
    (Re.Cat (Re.plus (Re.Class local_class))
       (Re.Cat (Re.literal "@")
          (Re.Cat (Re.plus (Re.Class domain_class)) Re.WordBoundary))).

Definition email_pattern : Re.regex :=
  Re.Cat Re.WordBoundary
    (Re.Cat (Re.plus (Re.Class local_class))
       (Re.Cat (Re.literal "@")
          (Re.Cat (Re.plus (Re.Class domain_class))
             (Re.Cat (Re.literal ".")
                (Re.Cat (Re.Repeat (Re.Class alpha) 2 None) Re.WordBoundary))))).

Definition ip_address_pattern : Re.regex :=
  Re.Cat Re.WordBoundary
    (Re.Cat (Re.exactly 3
               (Re.Cat (Re.Repeat (Re.Class Py.is_digit) 1 (Some 3)) (Re.literal ".")))
       (Re.Cat (Re.Repeat (Re.Class Py.is_digit) 1 (Some 3)) Re.WordBoundary)).

Definition capitalised : Re.regex :=
  Re.Cat (Re.Class Py.is_upper) (Re.plus (Re.Class Py.is_lower)).

Definition name_pattern : Re.regex :=
  Re.Cat Re.WordBoundary
    (Re.Cat capitalised
       (Re.Cat (Re.plus (Re.Cat (Re.Class Py.isspace) capitalised)) Re.WordBoundary)).

(** A [dict] with string keys, as a list of its items in insertion
    order. *)
Definition dict (V : Type) : Type := list (string * V).

Fixpoint dict_get {V : Type} (d : dict V) (key : string) : option V :=
  match d with
  | [] => None
  | (k, v) :: rest => if String.eqb k key then Some v else dict_get rest key
  end.

(** [d[key] = v]: overwrite in place, or append a new item. *)
Fixpoint dict_set {V : Type} (d : dict V) (key : string) (v : V) : dict V :=
  match d with
  | [] => [(key, v)]
  | (k, v0) :: rest =>
      if String.eqb k key then (k, v) :: rest else (k, v0) :: dict_set rest key v
  end.

Definition keys {V : Type} (d : dict V) : list string := map fst d.

(** [key in xs] for a list (or a set) of strings. *)
Definition mem (key : string) (xs : list string) : bool :=
  existsb (String.eqb key) xs.

Definition REGEX_PATTERNS : dict Re.regex :=
  [ ("phone", phone_pattern);
    ("aadhar", aadhar_pattern);
    ("passport", passport_pattern);
    ("upi_id", upi_id_pattern);
    ("email", email_pattern);
    ("ip_address", ip_address_pattern);
    ("name", name_pattern) ].

Definition STANDALONE_PII_KEYS : list string :=
  ["phone"; "aadhar"; "passport"; "upi_id"].

Definition COMBINATORIAL_PII_KEYS : list string :=
  ["name"; "email"; "address"; "ip_address"; "device_id"].

(** ** Redaction transforms *)

Definition redact_phone (phone : string) : string :=
  Py.take 2 phone ++ "XXXXXX" ++ Py.suffix 2 phone.

Definition redact_aadhar (aadhar : string) : string :=
  "XXXXXXXX" ++ Py.suffix 4 aadhar.

Definition redact_passport (passport : string) : result string :=
  c <- Py.first passport ;;
  Ok (String c ("XXXXX" ++ Py.suffix 2 passport)).

Definition redact_email (email : string) : result string :=
  try_except_ValueError
    (match Py.split "@" email with
     | [user; domain] =>
         c0 <- Py.first user ;;
         c1 <- Py.last user ;;
         Ok (String c0 (Py.repeat_char "*" (String.length user - 2))
               ++ String c1 ("@" ++ domain))
     | _ => Raise ValueError          (* the unpacking fails *)
     end)
    (Ok "[REDACTED_EMAIL]").

(** The list comprehension of [redact_name], on one token. *)
Definition mask_token (p : string) : result string :=
  c <- Py.first p ;;
  Ok (String c (Py.repeat_char "*" (String.length p - 1))).

Fixpoint map_result {A B : Type} (f : A -> result B) (xs : list A) : result (list B) :=
  match xs with
  | [] => Ok []
  | x :: rest => y <- f x ;; ys <- map_result f rest ;; Ok (y :: ys)
  end.

Definition redact_name (name : string) : result string :=
  let parts := Py.split_ws name in
  masked <- map_result mask_token parts ;;
  Ok (Py.join " " masked).

Definition redact_generic (key_name : string) : string :=
  "[REDACTED_" ++ Py.upper key_name ++ "]".

Definition total (f : string -> string) : string -> result string :=
  fun s => Ok (f s).

Definition REDACTION_MAPPING : dict (string -> result string) :=
  [ ("phone", total redact_phone);
    ("aadhar", total redact_aadhar);
    ("passport", redact_passport);
    ("email", redact_email);
    ("name", redact_name) ].

(** ** Records *)

(** A decoded JSON value.  Of a value that is neither a string nor
    [None], [process_record] observes nothing but its [str()]
    rendering; a float, an array or an object is therefore carried as
    [VOther] with that rendering. *)
Inductive value : Type :=
| VNull
| VBool (b : bool)
| VInt (z : Z)
| VStr (s : string)
| VOther (rendering : string).

Definition record : Type := dict value.

Definition isinstance_str (v : value) : bool :=
  match v with
  | VStr _ => true
  | _ => false
  end.

Definition is_None (v : value) : bool :=
  match v with
  | VNull => true
  | _ => false
  end.

(** [str(v)] *)
Definition py_str (v : value) : string :=
  match v with
  | VNull => "None"
  | VBool true => "True"
  | VBool false => "False"
  | VInt z => NilZero.string_of_int (Z.to_int z)
  | VStr s => s
  | VOther rendering => rendering
  end.

(** [s.add(key)] on a set kept as a duplicate-free list. *)
Definition set_add (key : string) (s : list string) : list string :=
  if mem key s then s else (s ++ [key])%list.

(** ** [process_record] *)

(** Body of the first loop, over [data.items()]; the state is
    [(is_pii, pii_keys_to_redact)]. *)
Definition standalone_step (st : bool * list string) (item : string * value)
  : bool * list string :=
  let '(key, value) := item in
  if mem key STANDALONE_PII_KEYS && isinstance_str value then
    match dict_get REGEX_PATTERNS key with
    | Some pattern =>
        if Re.fullmatch pattern (py_str value)
        then (true, set_add key (snd st))
        else st
    | None => st
    end
  else st.

Definition standalone_pass (data : record) : bool * list string :=
  fold_left standalone_step data (false, []).

(** Body of the second loop, over [data.keys()]. *)
Definition combinatorial_step (data : record) (found : list string) (key : string)
  : list string :=
  if mem key COMBINATORIAL_PII_KEYS then
    match dict_get data key with
    | Some value =>
        if String.eqb key "name" && isinstance_str value
           && negb (Py.contains " " (py_str value))
        then found                                   (* continue *)
        else if String.eqb key "address" && isinstance_str value
                && Nat.ltb (List.length (Py.split_ws (py_str value))) 3
        then found                                   (* continue *)
        else (found ++ [key])%list
    | None => found        (* not reached: [key] comes from [data.keys()] *)
    end
  else found.

Definition found_combinatorial_keys (data : record) : list string :=
  fold_left (combinatorial_step data) (keys data) [].

(** [(is_pii, pii_keys_to_redact)] when the third loop is entered. *)
Definition detect (data : record) : bool * list string :=
  let '(is_pii, pii_keys_to_redact) := standalone_pass data in
  let found := found_combinatorial_keys data in
  if Nat.leb 2 (List.length found)
  then (true, fold_left (fun s key => set_add key s) found pii_keys_to_redact)
  else (is_pii, pii_keys_to_redact).

(** Body of the third loop, over [pii_keys_to_redact]. *)
Definition redact_step (redacted_data : record) (key : string) : result record :=
  match dict_get redacted_data key with
  | Some v =>
      if is_None v then Ok redacted_data
      else
        let value_to_redact := py_str v in
        match dict_get REDACTION_MAPPING key with
        | Some redaction_func =>
            r <- redaction_func value_to_redact ;;
            Ok (dict_set redacted_data key (VStr r))
        | None => Ok (dict_set redacted_data key (VStr (redact_generic key)))
        end
  | None => Ok redacted_data
  end.

Fixpoint redact_loop (pii_keys : list string) (redacted_data : record)
  : result record :=
  match pii_keys with
  | [] => Ok redacted_data
  | key :: rest =>
      redacted_data' <- redact_step redacted_data key ;;
      redact_loop rest redacted_data'
  end.

Definition process_record (data : record) : result (record * bool) :=
  let redacted_data := data in                      (* data.copy() *)
  let '(is_pii, pii_keys_to_redact) := detect data in
  if is_pii then
    redacted_data' <- redact_loop pii_keys_to_redact redacted_data ;;
    Ok (redacted_data', is_pii)
  else Ok (redacted_data, is_pii).

(** ** [main] *)

(** [main] reads rows through [csv.DictReader], decodes one cell of
    each with [json.loads], runs [process_record] and writes one row
    through [csv.writer].  The two [json] functions are parameters of
    the model; the console messages are left out.  The rows are those
    the reader yields: a cell is [None] where the line was shorter than
    the header. *)

(** What [json.loads] does on a text: return a dict, return a value
    that is not a dict, raise [json.JSONDecodeError], or raise
    something else. *)
Inductive load_outcome : Type :=
| Loaded (data : record)
| LoadedOther
| JSONDecodeError
| OtherError.

Definition csv_row : Type := dict (option string).

(** A line of the output file. *)
Inductive line : Type :=
| Header                                   (* record_id, redacted_data_json, is_pii *)
| Row (record_id : option string) (redacted_json_str : string) (is_pii : bool).

(** How [main] ends: by returning, or through [sys.exit(1)]. *)
Inductive status : Type :=
| Returned
| Exit1.

(** One turn of the loop over the rows: [continue], a row written, or
    an exception that leaves the loop. *)
Inductive turn : Type :=
| Continue
| Written (l : line)
| Aborted.

(** [row.get(key, default)] *)
Definition row_get (row : csv_row) (key : string) (default : string)
  : option string :=
  match dict_get row key with
  | Some cell => cell
  | None => Some default
  end.

Section Main.

Variable json_loads : string -> load_outcome.
Variable json_dumps : record -> string.

Definition main_turn (row : csv_row) : turn :=
  let record_id := row_get row "record_id" EmptyString in
  match row_get row "data_json" "{}" with
  | None => Aborted                        (* json.loads(None): TypeError *)
  | Some data_json_str =>
      match json_loads data_json_str with
      | JSONDecodeError => Continue
      | OtherError => Aborted
      | LoadedOther => Aborted             (* no [items] on a non-dict: AttributeError *)
      | Loaded data_dict =>
          match process_record data_dict with
          | Ok (redacted_data, is_pii) =>
              Written (Row record_id (json_dumps redacted_data) is_pii)
          | Raise _ => Aborted
          end
      end
  end.

(** The loop [for row in reader]: the rows written, and how it ended. *)
Fixpoint main_loop (rows : list csv_row) : list line * status :=
  match rows with
  | [] => ([], Returned)
  | row :: rest =>
      match main_turn row with
      | Continue => main_loop rest
      | Written l => let '(written, st) := main_loop rest in (l :: written, st)
      | Aborted => ([], Exit1)
      end
  end.

(** [main], given what opening the files gives: [None] when that
    fails, the rows the reader yields otherwise.  The result is the
    lines [main] writes to the output file and the way it ends. *)
Definition main (reader : option (list csv_row)) : list line * status :=
  match reader with
  | None => ([], Exit1)                    (* FileNotFoundError *)
  | Some rows =>
      let '(written, st) := main_loop rows in (Header :: written, st)
  end.



End Main.

(** * Vocabulary of the properties *)

(** The tests, outcomes and sample records in whose terms the
    properties below are stated; none of it is part of the module. *)

(** ** Detection *)

(** The test of the first loop on one item. *)
Definition standalone_hit (item : string * value) : bool :=
  mem (fst item) STANDALONE_PII_KEYS && isinstance_str (snd item)
  && match dict_get REGEX_PATTERNS (fst item) with
     | Some pattern => Re.fullmatch pattern (py_str (snd item))
     | None => false
     end.

(** The test of the second loop on one key: in the combinatorial list
    and not skipped by a [continue]. *)
Definition qualifies (data : record) (key : string) : bool :=
  mem key COMBINATORIAL_PII_KEYS
  && match dict_get data key with
     | Some value =>
         negb (String.eqb key "name" && isinstance_str value
               && negb (Py.contains " " (py_str value)))
         && negb (String.eqb key "address" && isinstance_str value
                  && Nat.ltb (List.length (Py.split_ws (py_str value))) 3)
     | None => false
     end.

(** The keys over which the third loop runs. *)
Definition marked (data : record) (k : string) : Prop :=
  In k (snd (detect data)).

(** Some character of [s] is whitespace. *)
Fixpoint has_whitespace (s : string) : bool :=
  match s with
  | EmptyString => false
  | String c t => Py.isspace c || has_whitespace t
  end.

(** ** Redaction *)

(** The token mask of [redact_name], as a total function. *)
Definition star_token (p : string) : string :=
  match p with
  | String c t => String c (Py.repeat_char "*" (String.length t))
  | EmptyString => EmptyString
  end.

(** The values on which [redact_email] raises: an ['@'] followed by an
    ['@']-free rest, so that the local part is empty. *)
Definition empty_local_part (email : string) : bool :=
  match email with
  | String c d => Ascii.eqb c "@" && negb (Py.contains "@" d)
  | EmptyString => false
  end.

(** The string the loop body writes for [key] when the current value
    renders as [s]: the dispatch through [REDACTION_MAPPING]. *)
Definition redact_value (key : string) (s : string) : result string :=
  match dict_get REDACTION_MAPPING key with
  | Some redaction_func => redaction_func s
  | None => Ok (redact_generic key)
  end.

(** The value the loop body leaves under [key], given the value [v] it
    found there and provided the transform returned. *)
Definition redacted (key : string) (v : value) : value :=
  if is_None v then v
  else match redact_value key (py_str v) with
       | Ok r => VStr r
       | Raise _ => v
       end.


(** The record carries no non-null [email] whose text makes
    [redact_email] raise. *)
Definition email_redactable (data : record) : bool :=
  match dict_get data "email" with
  | Some v => is_None v || negb (empty_local_part (py_str v))
  | None => true
  end.



(** ** Fixed-length runs of one character class *)

(** Every character of [s] is in class [p]. *)
Fixpoint all_chars (p : ascii -> bool) (s : string) : bool :=
  match s with
  | EmptyString => true
  | String c t => p c && all_chars p t
  end.

(** Reading exactly [n] characters of class [p]. *)
Fixpoint eat (p : ascii -> bool) (n : nat) (st : Re.state) : option Re.state :=
  match n with
  | O => Some st
  | S n' =>
      match snd st with
      | String c t => if p c then eat p n' (Some c, t) else None
      | EmptyString => None
      end
  end.

(** The positions a deterministic read reaches: one or none. *)
Definition positions (o : option Re.state) : list Re.state :=
  match o with
  | Some st => [st]
  | None => []
  end.

(** [\b\d{n}\b] *)
Definition digits_pattern (n : nat) : Re.regex :=
  Re.Cat Re.WordBoundary
    (Re.Cat (Re.exactly n (Re.Class Py.is_digit)) Re.WordBoundary).

(** ** Sample records *)

(** No key of either category list. *)
Definition order_record : record :=
  [("order_id", VInt 4411); ("note", VStr "9876543210"); ("paid", VBool true)].

(** Two combinatorial keys, both null. *)
Definition null_pair : record := [("email", VNull); ("device_id", VNull)].


(** Two qualifying combinatorial keys. *)
Definition email_and_ip : record :=
  [("email", VStr "jane.doe@example.com"); ("ip_address", VStr "10.0.0.5")].




(** U+0009 *)
Definition tab : ascii := "009"%char.

(** A name of two tokens separated by a tab. *)
Definition tabbed_name : record :=
  [("name", VStr ("Madhav" ++ String tab "Rao"));
   ("address", VStr "221B Baker Street")].

(** A name of two tokens separated by a space, and a three-token address. *)
Definition madhav_rao : record :=
  [("name", VStr "Madhav Rao"); ("address", VStr "221B Baker Street")].

(** An email with an empty local part, next to a second combinatorial key. *)
Definition bad_email : record :=
  [("email", VStr "@example.com"); ("ip_address", VStr "10.0.0.5")].

(** The same, with a ten-digit phone. *)
Definition phone_and_bad_email : record :=
  [("phone", VStr "9876543210"); ("email", VStr "@example.com");
   ("device_id", VStr "D-77")].

(** The same, with a UPI identifier. *)
Definition upi_and_bad_email : record :=
  [("upi_id", VStr "user@bank"); ("email", VStr "@example.com");
   ("device_id", VStr "D-77")].


(** A ten-digit phone next to a single combinatorial field. *)
Definition phone_and_email : record :=
  [("phone", VStr "9876543210"); ("email", VStr "jane.doe@example.com")].

(** A phone number inside a longer text. *)
Definition embedded_phone : record :=
  [("phone", VStr "call 9876543210"); ("note", VStr "urgent")].

(** Two combinatorial keys whose values look nothing like their
    category. *)
Definition free_text_pair : record :=
  [("email", VStr "not an email"); ("device_id", VBool true)].

(** An address of two tokens, and one of three. *)
Definition short_address : record :=
  [("email", VStr "a@b.co"); ("address", VStr "Baker Street")].

Definition long_address : record :=
  [("email", VStr "a@b.co"); ("address", VStr "221B Baker Street")].

(** One capital letter followed by seven digits. *)
Definition passport_shape (s : string) : bool :=
  match s with
  | String c t =>
      Py.is_upper c && Nat.eqb (String.length t) 7 && all_chars Py.is_digit t
  | EmptyString => false
  end.



(** A token as [split()] yields them: not empty, no whitespace in it. *)
Definition clean_token (t : string) : Prop :=
  t <> EmptyString /\ has_whitespace t = false.

(** A name with a trailing space: it has the space the second loop
    looks for, and a single token. *)
Definition trailing_space : record :=
  [("name", VStr "Madhav "); ("address", VStr "221B Baker Street")].

(** The number of occurrences of [c] in [s]. *)
Fixpoint count_char (c : ascii) (s : string) : nat :=
  match s with
  | EmptyString => 0
  | String a t => (if Ascii.eqb a c then 1 else 0) + count_char c t
  end.

(** The character a read of [pre] leaves behind it: the last one of
    [pre], or the one that was there before when [pre] is empty. *)
Definition last_or (prev : option ascii) (pre : string) : option ascii :=
  match Py.last pre with
  | Ok c => Some c
  | Raise _ => prev
  end.

(** The first, the last character of [s] is a word character. *)
Definition word_first (s : string) : bool :=
  match s with
  | String c _ => Re.is_word c
  | EmptyString => false
  end.

Definition word_last (s : string) : bool :=
  match Py.last s with
  | Ok c => Re.is_word c
  | Raise _ => false
  end.

(** A toy decoder for three cell texts, and rows holding them. *)
Definition sample_loads (text : string) : load_outcome :=
  if String.eqb text "{phone}" then Loaded [("phone", VStr "9876543210")]
  else if String.eqb text "{bad email}" then Loaded bad_email
  else if String.eqb text "[1, 2]" then LoadedOther
  else JSONDecodeError.

Definition sample_dumps (data : record) : string :=
  match data with
  | [("phone", VStr s)] => s
  | _ => "{...}"
  end.

Definition phone_row : csv_row :=
  [("record_id", Some "1"); ("data_json", Some "{phone}")].

Definition garbled_row : csv_row :=
  [("record_id", Some "2"); ("data_json", Some "{phone")].

Definition bad_email_row : csv_row :=
  [("record_id", Some "3"); ("data_json", Some "{bad email}")].

(** * Properties *)

(** ** Lists used as sets, dictionaries *)

Lemma mem_In (key : string) (xs : list string) :
  mem key xs = true <-> In key xs.
Proof.
  unfold mem. rewrite existsb_exists. split.
  - intros [x [Hin Heq]]. apply String.eqb_eq in Heq. now subst.
  - intros Hin. exists key. split; [assumption | apply String.eqb_refl].
Qed.

Lemma mem_false (key : string) (xs : list string) :
  mem key xs = false <-> ~ In key xs.
Proof.
  rewrite <- mem_In. destruct (mem key xs); split; congruence.
Qed.

Lemma set_add_In (key k : string) (s : list string) :
  In k (set_add key s) <-> k = key \/ In k s.
Proof.
  unfold set_add. destruct (mem key s) eqn:E.
  - apply mem_In in E. split; [auto | intros [-> | H]; assumption].
  - rewrite in_app_iff. simpl. intuition congruence.
Qed.

Lemma set_add_NoDup (key : string) (s : list string) :
  NoDup s -> NoDup (set_add key s).
Proof.
  intros Hs. unfold set_add. destruct (mem key s) eqn:E; [assumption |].
  apply mem_false in E.
  apply NoDup_app; [assumption | repeat constructor; auto | ].
  intros x Hx [<- | []]. contradiction.
Qed.

Lemma fold_set_add_In (xs s : list string) (k : string) :
  In k (fold_left (fun s key => set_add key s) xs s) <-> In k xs \/ In k s.
Proof.
  revert s. induction xs as [| x xs IH]; intros s; simpl.
  - tauto.
  - rewrite IH, set_add_In. intuition congruence.
Qed.

Lemma fold_set_add_NoDup (xs s : list string) :
  NoDup s -> NoDup (fold_left (fun s key => set_add key s) xs s).
Proof.
  revert s. induction xs as [| x xs IH]; intros s Hs; simpl; [assumption |].
  apply IH, set_add_NoDup, Hs.
Qed.

Section Dict.
Context {V : Type}.
Implicit Types (d : dict V) (k key : string) (v : V).

Lemma dict_get_set_same d key v :
  dict_get (dict_set d key v) key = Some v.
Proof.
  induction d as [| [k v0] d IH]; simpl.
  - now rewrite String.eqb_refl.
  - destruct (String.eqb k key) eqn:E; simpl; rewrite E; [reflexivity | exact IH].
Qed.

Lemma dict_get_set_other d key k v :
  k <> key -> dict_get (dict_set d key v) k = dict_get d k.
Proof.
  intros Hne. induction d as [| [k0 v0] d IH]; simpl.
  - apply String.eqb_neq in Hne. now rewrite String.eqb_sym, Hne.
  - destruct (String.eqb k0 key) eqn:E; simpl.
    + apply String.eqb_eq in E. subst k0.
      assert (String.eqb key k = false) as -> by (apply String.eqb_neq; congruence).
      reflexivity.
    + now rewrite IH.
Qed.

Lemma dict_get_In d key v :
  dict_get d key = Some v -> In (key, v) d.
Proof.
  induction d as [| [k0 v0] d IH]; simpl; [discriminate |].
  destruct (String.eqb k0 key) eqn:E.
  - apply String.eqb_eq in E. intros [= ->]. left. now subst.
  - auto.
Qed.

Lemma dict_get_keys d key v :
  dict_get d key = Some v -> In key (keys d).
Proof.
  intros H. apply dict_get_In in H. change key with (fst (key, v)).
  unfold keys. now apply in_map.
Qed.

Lemma keys_dict_get d key :
  In key (keys d) -> exists v, dict_get d key = Some v.
Proof.
  induction d as [| [k0 v0] d IH]; simpl; [tauto |].
  intros [-> | Hin].
  - rewrite String.eqb_refl. eauto.
  - destruct (String.eqb k0 key); eauto.
Qed.

(** In a dictionary proper (no key twice) an item is what its key
    looks up. *)
Lemma In_dict_get d key v :
  NoDup (keys d) -> In (key, v) d -> dict_get d key = Some v.
Proof.
  induction d as [| [k0 v0] d IH]; simpl; [tauto |].
  intros Hnd [[= -> ->] | Hin].
  - now rewrite String.eqb_refl.
  - inversion Hnd as [| ? ? Hnotin Hnd']; subst.
    destruct (String.eqb k0 key) eqn:E.
    + apply String.eqb_eq in E. subst k0. exfalso. apply Hnotin.
      change key with (fst (key, v)). now apply in_map.
    + auto.
Qed.

Lemma keys_dict_set d key v :
  In key (keys d) -> keys (dict_set d key v) = keys d.
Proof.
  induction d as [| [k0 v0] d IH]; simpl; [tauto |].
  intros Hin. destruct (String.eqb k0 key) eqn:E; simpl; [reflexivity |].
  f_equal. apply IH. destruct Hin as [-> | Hin]; [| assumption].
  now rewrite String.eqb_refl in E.
Qed.
End Dict.

(** ** String primitives *)

Lemma split_not_nil (sep : ascii) (s : string) : Py.split sep s <> [].
Proof.
  destruct s as [| c t]; simpl; [discriminate |].
  destruct (Ascii.eqb c sep); [discriminate |].
  destruct (Py.split sep t); discriminate.
Qed.

Lemma split_no_sep (sep : ascii) (s : string) :
  Py.contains sep s = false -> Py.split sep s = [s].
Proof.
  induction s as [| c t IH]; simpl; [reflexivity |].
  intros H. apply orb_false_iff in H as [Hc Ht].
  rewrite Hc, (IH Ht). reflexivity.
Qed.

Lemma split_at_sep (sep : ascii) (u d : string) :
  Py.contains sep u = false ->
  Py.split sep (u ++ String sep d) = u :: Py.split sep d.
Proof.
  induction u as [| c t IH]; simpl; intros H.
  - now rewrite Ascii.eqb_refl.
  - apply orb_false_iff in H as [Hc Ht]. rewrite Hc, (IH Ht). reflexivity.
Qed.

(** A split into one piece means there was no separator. *)
Lemma split_single (sep : ascii) (s x : string) :
  Py.split sep s = [x] -> Py.contains sep s = false /\ x = s.
Proof.
  revert x. induction s as [| c t IH]; simpl; intros x H.
  - now injection H as <-.
  - destruct (Ascii.eqb c sep) eqn:E.
    + injection H as _ H. now apply split_not_nil in H.
    + destruct (Py.split sep t) as [| p rest] eqn:Es; [now apply split_not_nil in Es |].
      injection H as <- ->. destruct (IH p eq_refl) as [-> ->]. auto.
Qed.

Lemma last_cons (c : ascii) (t : string) : exists b, Py.last (String c t) = Ok b.
Proof.
  revert c. induction t as [| c' t IH]; intros c.
  - now exists c.
  - destruct (IH c') as [b Hb]. exists b. exact Hb.
Qed.

Lemma last_snoc (s : string) (b : ascii) :
  Py.last (s ++ String b EmptyString) = Ok b.
Proof.
  induction s as [| c t IH]; [reflexivity |].
  simpl. destruct (t ++ String b EmptyString) eqn:E; [| exact IH].
  destruct t; discriminate.
Qed.

Lemma length_append (s1 s2 : string) :
  String.length (s1 ++ s2) = String.length s1 + String.length s2.
Proof. induction s1; simpl; auto. Qed.

Lemma split_ws_tokens (s : string) :
  Forall (fun tok => tok <> EmptyString) (Py.split_ws s).
Proof.
  induction s as [| c t IH]; simpl; [constructor |].
  destruct (Py.isspace c); [assumption |].
  destruct t as [| c' t']; [repeat constructor; discriminate |].
  destruct (Py.isspace c'); [constructor; [discriminate | assumption] |].
  destruct (Py.split_ws (String c' t')) as [| tok rest].
  - repeat constructor; discriminate.
  - inversion IH; subst. constructor; [discriminate | assumption].
Qed.

(** ** The transforms: which calls raise *)

Lemma mask_token_ok (p : string) :
  p <> EmptyString -> mask_token p = Ok (star_token p).
Proof.
  destruct p as [| c t]; [congruence |]. intros _.
  unfold mask_token. simpl. now rewrite Nat.sub_0_r.
Qed.

Lemma map_result_ok {A B : Type} (f : A -> result B) (g : A -> B) (xs : list A) :
  Forall (fun x => f x = Ok (g x)) xs -> map_result f xs = Ok (map g xs).
Proof.
  induction 1 as [| x xs Hx _ IH]; simpl; [reflexivity |].
  now rewrite Hx, IH.
Qed.

(** [redact_name] never raises: [split()] yields no empty token, so the
    index [p[0]] is always in range. *)
Lemma redact_name_ok (name : string) :
  redact_name name = Ok (Py.join " " (map star_token (Py.split_ws name))).
Proof.
  unfold redact_name.
  rewrite (map_result_ok mask_token star_token); [reflexivity |].
  eapply Forall_impl; [| apply split_ws_tokens].
  intros tok. apply mask_token_ok.
Qed.

Lemma redact_email_raises (email : string) :
  empty_local_part email = true -> redact_email email = Raise IndexError.
Proof.
  destruct email as [| c d]; simpl; [discriminate |].
  intros H. apply andb_true_iff in H as [Hc Hd].
  apply negb_true_iff in Hd.
  unfold redact_email. simpl. rewrite Hc, (split_no_sep _ _ Hd). reflexivity.
Qed.

Lemma redact_email_returns (email : string) :
  empty_local_part email = false -> exists r, redact_email email = Ok r.
Proof.
  intros H. unfold redact_email.
  destruct (Py.split "@" email) as [| user [| domain [| x rest]]] eqn:Es;
    try (eexists; reflexivity).
  destruct user as [| a u].
  - exfalso. destruct email as [| c d]; simpl in *; [discriminate |].
    destruct (Ascii.eqb c "@") eqn:Ec.
    + injection Es as Es. apply split_single in Es as [Hd _].
      rewrite Hd in H. discriminate.
    + destruct (Py.split "@" d); discriminate.
  - destruct (last_cons a u) as [b Hb].
    cbn [Py.first bind]. rewrite Hb. cbn [bind try_except_ValueError].
    eexists. reflexivity.
Qed.

Lemma redact_email_raises_iff (email : string) (e : exn) :
  redact_email email = Raise e <-> e = IndexError /\ empty_local_part email = true.
Proof.
  split.
  - intros H. destruct (empty_local_part email) eqn:E.
    + rewrite (redact_email_raises _ E) in H. now injection H as <-.
    + destruct (redact_email_returns _ E) as [r Hr]. congruence.
  - intros [-> H]. now apply redact_email_raises.
Qed.

Lemma redact_passport_raises_iff (passport : string) (e : exn) :
  redact_passport passport = Raise e <-> e = IndexError /\ passport = EmptyString.
Proof.
  destruct passport; simpl; split; intros H.
  - now injection H as <-.
  - now destruct H as [-> _].
  - discriminate.
  - now destruct H.
Qed.

(** ** Detection: what the first two loops compute *)

Lemma standalone_step_hit (st : bool * list string) (item : string * value) :
  standalone_step st item
  = if standalone_hit item then (true, set_add (fst item) (snd st)) else st.
Proof.
  destruct item as [key v]. unfold standalone_step, standalone_hit. cbn [fst snd].
  destruct (mem key STANDALONE_PII_KEYS && isinstance_str v); cbn [andb]; [| reflexivity].
  destruct (dict_get REGEX_PATTERNS key); reflexivity.
Qed.

Lemma standalone_fold (items : list (string * value)) (st : bool * list string) :
  let r := fold_left standalone_step items st in
  fst r = (fst st || existsb standalone_hit items)%bool
  /\ (forall k, In k (snd r) <->
                In k (snd st) \/ exists v, In (k, v) items /\ standalone_hit (k, v) = true)
  /\ (NoDup (snd st) -> NoDup (snd r)).
Proof.
  revert st. induction items as [| item items IH]; intros st; simpl.
  - rewrite orb_false_r. repeat split; try tauto.
    intros [H | [v [[] _]]]. exact H.
  - specialize (IH (standalone_step st item)).
    destruct IH as [Hflag [Hkeys Hnd]].
    rewrite standalone_step_hit in *.
    destruct (standalone_hit item) eqn:Ehit; simpl in *.
    + split; [| split].
      * rewrite Hflag. now rewrite orb_true_r.
      * intros k. rewrite Hkeys, set_add_In. split.
        -- intros [[-> | H] | [v [Hin Hv]]]; eauto.
           right. exists (snd item). rewrite <- surjective_pairing. auto.
        -- intros [H | [v [[-> | Hin] Hv]]]; eauto.
      * intros H. apply Hnd, set_add_NoDup, H.
    + split; [| split].
      * exact Hflag.
      * intros k. rewrite Hkeys. split.
        -- intros [H | [v [Hin Hv]]]; eauto.
        -- intros [H | [v [[-> | Hin] Hv]]]; eauto. congruence.
      * exact Hnd.
Qed.

Lemma standalone_pass_flag (data : record) :
  fst (standalone_pass data) = existsb standalone_hit data.
Proof. apply (standalone_fold data (false, [])). Qed.

Lemma standalone_pass_keys (data : record) (k : string) :
  In k (snd (standalone_pass data))
  <-> exists v, In (k, v) data /\ standalone_hit (k, v) = true.
Proof.
  destruct (standalone_fold data (false, [])) as [_ [H _]].
  unfold standalone_pass. rewrite H. simpl. tauto.
Qed.

Lemma standalone_pass_NoDup (data : record) : NoDup (snd (standalone_pass data)).
Proof. apply (standalone_fold data (false, [])). constructor. Qed.

Lemma standalone_pass_none (data : record) :
  fst (standalone_pass data) = false -> snd (standalone_pass data) = [].
Proof.
  rewrite standalone_pass_flag. intros H.
  destruct (snd (standalone_pass data)) as [| k ks] eqn:E; [reflexivity |].
  assert (In k (snd (standalone_pass data))) as Hin by (rewrite E; now left).
  apply standalone_pass_keys in Hin as [v [Hin Hv]].
  assert (existsb standalone_hit data = true) by (apply existsb_exists; eauto).
  congruence.
Qed.

Lemma combinatorial_step_qualifies (data : record) (found : list string) (key : string) :
  combinatorial_step data found key
  = if qualifies data key then (found ++ [key])%list else found.
Proof.
  unfold combinatorial_step, qualifies.
  destruct (mem key COMBINATORIAL_PII_KEYS); cbn [andb]; [| reflexivity].
  destruct (dict_get data key) as [v |]; [| reflexivity].
  destruct (String.eqb key "name" && isinstance_str v
            && negb (Py.contains " " (py_str v))); cbn [andb negb]; [reflexivity |].
  destruct (String.eqb key "address" && isinstance_str v
            && Nat.ltb (List.length (Py.split_ws (py_str v))) 3); reflexivity.
Qed.

Lemma combinatorial_fold (data : record) (ks found : list string) :
  fold_left (combinatorial_step data) ks found
  = (found ++ filter (qualifies data) ks)%list.
Proof.
  revert found. induction ks as [| k ks IH]; intros found; simpl.
  - now rewrite app_nil_r.
  - rewrite IH, combinatorial_step_qualifies.
    destruct (qualifies data k); [| reflexivity].
    now rewrite <- app_assoc.
Qed.

(** The second loop collects, in order, the keys that qualify. *)
Lemma found_combinatorial_keys_filter (data : record) :
  found_combinatorial_keys data = filter (qualifies data) (keys data).
Proof. unfold found_combinatorial_keys. now rewrite combinatorial_fold. Qed.

Lemma found_In (data : record) (k : string) :
  In k (found_combinatorial_keys data) <-> In k (keys data) /\ qualifies data k = true.
Proof. rewrite found_combinatorial_keys_filter. apply filter_In. Qed.

Lemma found_combinatorial (data : record) (k : string) :
  In k (found_combinatorial_keys data) -> In k COMBINATORIAL_PII_KEYS.
Proof.
  intros H. apply found_In in H as [_ H]. unfold qualifies in H.
  apply andb_true_iff in H as [H _]. now apply mem_In.
Qed.

Lemma detect_flag (data : record) :
  fst (detect data)
  = (existsb standalone_hit data
     || Nat.leb 2 (List.length (found_combinatorial_keys data)))%bool.
Proof.
  unfold detect. rewrite <- standalone_pass_flag.
  destruct (standalone_pass data) as [flag ks]. cbn [fst snd].
  destruct (Nat.leb 2 (List.length (found_combinatorial_keys data))); cbn [fst];
    [now rewrite orb_true_r | now rewrite orb_false_r].
Qed.

Lemma detect_keys (data : record) (k : string) :
  marked data k
  <-> In k (snd (standalone_pass data))
      \/ (2 <= List.length (found_combinatorial_keys data)
          /\ In k (found_combinatorial_keys data)).
Proof.
  unfold marked, detect. destruct (standalone_pass data) as [flag ks]. cbn [fst snd].
  destruct (Nat.leb 2 (List.length (found_combinatorial_keys data))) eqn:E; cbn [fst snd].
  - apply Nat.leb_le in E. rewrite fold_set_add_In. tauto.
  - apply Nat.leb_gt in E. split; [auto | intros [H | [H _]]; [exact H | lia]].
Qed.

Lemma detect_NoDup (data : record) : NoDup (snd (detect data)).
Proof.
  pose proof (standalone_pass_NoDup data) as H.
  unfold detect. destruct (standalone_pass data) as [flag ks]. cbn [fst snd] in *.
  destruct (Nat.leb 2 (List.length (found_combinatorial_keys data))); cbn [fst snd];
    [now apply fold_set_add_NoDup | assumption].
Qed.

(** Nothing is marked unless the record is flagged. *)
Lemma detect_unflagged (data : record) :
  fst (detect data) = false -> snd (detect data) = [].
Proof.
  intros H. pose proof (standalone_pass_none data) as Hnone.
  rewrite standalone_pass_flag in Hnone.
  rewrite detect_flag in H. apply orb_false_iff in H as [Hs Hc].
  unfold detect. destruct (standalone_pass data) as [flag ks]. cbn [fst snd] in *.
  rewrite Hc. cbn [snd]. auto.
Qed.

(** ** Redaction: what the third loop computes *)

Lemma redact_step_dispatch (d : record) (key : string) :
  redact_step d key
  = match dict_get d key with
    | Some v =>
        if is_None v then Ok d
        else r <- redact_value key (py_str v) ;; Ok (dict_set d key (VStr r))
    | None => Ok d
    end.
Proof.
  unfold redact_step, redact_value.
  destruct (dict_get d key) as [v |]; [| reflexivity].
  destruct (is_None v); [reflexivity |].
  destruct (dict_get REDACTION_MAPPING key); reflexivity.
Qed.

Lemma redact_step_ok (d d' : record) (key : string) :
  redact_step d key = Ok d' ->
  dict_get d' key = option_map (redacted key) (dict_get d key)
  /\ (forall k, k <> key -> dict_get d' k = dict_get d k)
  /\ keys d' = keys d.
Proof.
  rewrite redact_step_dispatch.
  destruct (dict_get d key) as [v |] eqn:Eget; cbn [option_map].
  - unfold redacted. destruct (is_None v).
    + intros [= <-]. rewrite Eget. auto.
    + destruct (redact_value key (py_str v)) as [r | e]; [| discriminate].
      cbn [bind]. intros [= <-]. split; [| split].
      * apply dict_get_set_same.
      * intros k Hk. now apply dict_get_set_other.
      * eapply keys_dict_set, dict_get_keys, Eget.
  - intros [= <-]. rewrite Eget. auto.
Qed.

Lemma redact_step_returns (d : record) (key : string) :
  (forall v, dict_get d key = Some v -> is_None v = false ->
             exists r, redact_value key (py_str v) = Ok r) ->
  exists d', redact_step d key = Ok d'.
Proof.
  intros H. rewrite redact_step_dispatch.
  destruct (dict_get d key) as [v |]; [| eauto].
  destruct (is_None v) eqn:E; [eauto |].
  destruct (H v eq_refl E) as [r ->]. cbn [bind]. eauto.
Qed.

Lemma redact_step_raises (d : record) (key : string) (e : exn) :
  redact_step d key = Raise e ->
  exists v, dict_get d key = Some v /\ is_None v = false
            /\ redact_value key (py_str v) = Raise e.
Proof.
  rewrite redact_step_dispatch.
  destruct (dict_get d key) as [v |]; [| discriminate].
  destruct (is_None v) eqn:E; [discriminate |].
  destruct (redact_value key (py_str v)) as [r | e'] eqn:Er; [discriminate |].
  cbn [bind]. intros [= <-]. eauto.
Qed.

(** The loop rewrites exactly the keys it runs over, each one from the
    value the record had on entry. *)
Lemma redact_loop_ok (ks : list string) :
  NoDup ks -> forall d d', redact_loop ks d = Ok d' ->
  keys d' = keys d
  /\ forall k, dict_get d' k
               = if mem k ks then option_map (redacted k) (dict_get d k)
                 else dict_get d k.
Proof.
  induction 1 as [| k0 ks Hnotin Hnd IH]; intros d d'; cbn [redact_loop].
  - intros [= <-]. auto.
  - destruct (redact_step d k0) as [d1 | e] eqn:E1; [| discriminate].
    cbn [bind]. intros Hloop.
    apply redact_step_ok in E1 as [Hsame [Hother Hk1]].
    destruct (IH _ _ Hloop) as [Hk Hget]. split; [congruence |].
    intros k. rewrite Hget. unfold mem at 2. cbn [existsb]. fold (mem k ks).
    destruct (String.eqb k k0) eqn:Ek.
    + apply String.eqb_eq in Ek. subst k0.
      apply mem_false in Hnotin. rewrite Hnotin. exact Hsame.
    + apply String.eqb_neq in Ek. rewrite (Hother _ Ek). reflexivity.
Qed.

Lemma redact_loop_returns (ks : list string) :
  NoDup ks -> forall d,
  (forall k v, In k ks -> dict_get d k = Some v -> is_None v = false ->
               exists r, redact_value k (py_str v) = Ok r) ->
  exists d', redact_loop ks d = Ok d'.
Proof.
  induction 1 as [| k0 ks Hnotin Hnd IH]; intros d Hok; cbn [redact_loop].
  - eauto.
  - destruct (redact_step_returns d k0) as [d1 E1].
    { intros v. apply Hok. now left. }
    rewrite E1. cbn [bind]. apply IH.
    intros k v Hin. apply redact_step_ok in E1 as [_ [Hother _]].
    rewrite Hother by (intros ->; contradiction).
    apply Hok. now right.
Qed.

Lemma redact_loop_raises (ks : list string) :
  NoDup ks -> forall d e, redact_loop ks d = Raise e ->
  exists k v, In k ks /\ dict_get d k = Some v /\ is_None v = false
              /\ redact_value k (py_str v) = Raise e.
Proof.
  induction 1 as [| k0 ks Hnotin Hnd IH]; intros d e; cbn [redact_loop].
  - discriminate.
  - destruct (redact_step d k0) as [d1 | e1] eqn:E1; cbn [bind].
    + intros Hloop. destruct (IH _ _ Hloop) as [k [v [Hin [Hget Hr]]]].
      apply redact_step_ok in E1 as [_ [Hother _]].
      rewrite Hother in Hget by (intros ->; contradiction).
      exists k, v. auto with datatypes.
    + intros [= <-]. apply redact_step_raises in E1 as [v Hv].
      exists k0, v. intuition auto with datatypes.
Qed.

(** Only two dispatches can raise, both with [IndexError]. *)
Lemma redact_value_exn (key s : string) (e : exn) :
  redact_value key s = Raise e ->
  e = IndexError
  /\ ((key = "email" /\ empty_local_part s = true)
      \/ (key = "passport" /\ s = EmptyString)).
Proof.
  unfold redact_value, REDACTION_MAPPING. cbn [dict_get].
  destruct (String.eqb_spec "phone" key) as [<- | _]; [discriminate |].
  destruct (String.eqb_spec "aadhar" key) as [<- | _]; [discriminate |].
  destruct (String.eqb_spec "passport" key) as [<- | _].
  { intros H. apply redact_passport_raises_iff in H as [-> ->]. auto. }
  destruct (String.eqb_spec "email" key) as [<- | _].
  { intros H. apply redact_email_raises_iff in H as [-> H]. auto. }
  destruct (String.eqb_spec "name" key) as [<- | _]; [| discriminate].
  rewrite redact_name_ok. discriminate.
Qed.

(** ** [process_record] as a whole *)

Lemma process_record_unfold (data : record) :
  process_record data
  = if fst (detect data)
    then out <- redact_loop (snd (detect data)) data ;; Ok (out, true)
    else Ok (data, false).
Proof.
  unfold process_record. destruct (detect data) as [[|] ks]; reflexivity.
Qed.

(** Whenever [process_record] returns, the flag is the one detection
    computed, the record has the same keys in the same order, and each
    value is the input value, rewritten by its transform if the key is
    marked. *)
Lemma process_record_ok (data out : record) (flag : bool) :
  process_record data = Ok (out, flag) ->
  flag = fst (detect data)
  /\ keys out = keys data
  /\ forall k, dict_get out k
               = if mem k (snd (detect data))
                 then option_map (redacted k) (dict_get data k)
                 else dict_get data k.
Proof.
  rewrite process_record_unfold.
  destruct (fst (detect data)) eqn:Eflag.
  - destruct (redact_loop (snd (detect data)) data) as [d' | e] eqn:Eloop;
      cbn [bind]; [| discriminate].
    intros [= <- <-].
    destruct (redact_loop_ok _ (detect_NoDup data) _ _ Eloop) as [Hk Hget]. auto.
  - intros [= <- <-]. rewrite (detect_unflagged _ Eflag). auto.
Qed.

Lemma passport_pattern_nonempty :
  Re.fullmatch passport_pattern EmptyString = false.
Proof. reflexivity. Qed.

(** A marked [passport] holds a string that matched the passport
    pattern, hence a non-empty one; a marked [email] is one of at least
    two qualifying combinatorial keys. *)
Lemma marked_passport (data : record) (v : value) :
  NoDup (keys data) -> marked data "passport" ->
  dict_get data "passport" = Some v -> py_str v <> EmptyString.
Proof.
  intros Hnd Hm Hget. apply detect_keys in Hm as [Hs | [_ Hc]].
  - apply standalone_pass_keys in Hs as [v' [Hin Hhit]].
    apply (In_dict_get _ _ _ Hnd) in Hin.
    assert (v' = v) as -> by congruence.
    unfold standalone_hit in Hhit. cbn [fst snd] in Hhit.
    apply andb_true_iff in Hhit as [_ Hhit].
    change (dict_get REGEX_PATTERNS "passport") with (Some passport_pattern) in Hhit.
    intros E. rewrite E, passport_pattern_nonempty in Hhit. discriminate.
  - apply found_combinatorial in Hc. simpl in Hc.
    repeat (destruct Hc as [Hc | Hc]; [discriminate |]). contradiction.
Qed.

Lemma marked_redactable (data : record) (k : string) (v : value) :
  NoDup (keys data) -> email_redactable data = true ->
  marked data k -> dict_get data k = Some v -> is_None v = false ->
  exists r, redact_value k (py_str v) = Ok r.
Proof.
  intros Hnd Hemail Hm Hget Hv.
  destruct (redact_value k (py_str v)) as [r | e] eqn:Er; [eauto |].
  exfalso. apply redact_value_exn in Er as [_ [[-> Hbad] | [-> Hempty]]].
  - unfold email_redactable in Hemail. rewrite Hget, Hv, Hbad in Hemail.
    discriminate.
  - now apply (marked_passport data v).
Qed.

(** On a record that is [email_redactable], [process_record]
    returns. *)
Lemma process_record_returns (data : record) :
  NoDup (keys data) -> email_redactable data = true ->
  exists out, process_record data = Ok (out, fst (detect data)).
Proof.
  intros Hnd Hemail. rewrite process_record_unfold.
  destruct (fst (detect data)) eqn:Eflag; [| eauto].
  destruct (redact_loop_returns _ (detect_NoDup data) data) as [d' Hd'].
  - intros k v Hin. now apply marked_redactable.
  - rewrite Hd'. cbn [bind]. eauto.
Qed.

(** Conversely, the only way [process_record] fails is an [IndexError]
    out of [redact_email], on a marked, non-null [email] with an empty
    local part. *)
Lemma process_record_raises (data : record) (e : exn) :
  NoDup (keys data) -> process_record data = Raise e ->
  e = IndexError /\ email_redactable data = false /\ marked data "email".
Proof.
  intros Hnd. rewrite process_record_unfold.
  destruct (fst (detect data)); [| discriminate].
  destruct (redact_loop (snd (detect data)) data) as [d' | e'] eqn:Eloop;
    cbn [bind]; [discriminate |].
  intros [= <-].
  apply (redact_loop_raises _ (detect_NoDup data)) in Eloop
    as [k [v [Hin [Hget [Hv Hr]]]]].
  apply redact_value_exn in Hr as [-> [[-> Hbad] | [-> Hempty]]].
  - repeat split; [| exact Hin].
    unfold email_redactable. now rewrite Hget, Hv, Hbad.
  - exfalso. now apply (marked_passport data v).
Qed.

Lemma redact_loop_raising_key (ks : list string) :
  NoDup ks -> forall d k v e,
  In k ks -> dict_get d k = Some v -> is_None v = false ->
  redact_value k (py_str v) = Raise e ->
  exists e', redact_loop ks d = Raise e'.
Proof.
  induction 1 as [| k0 ks Hnotin Hnd IH]; intros d k v e Hin Hget Hv Hr;
    [destruct Hin |].
  cbn [redact_loop].
  destruct (redact_step d k0) as [d1 | e1] eqn:E1; cbn [bind]; [| eauto].
  destruct Hin as [-> | Hin].
  - rewrite redact_step_dispatch, Hget, Hv, Hr in E1. discriminate.
  - apply redact_step_ok in E1 as [_ [Hother _]].
    apply (IH d1 k v e Hin); [| exact Hv | exact Hr].
    rewrite Hother by (intros ->; contradiction). exact Hget.
Qed.

(** [process_record] raises exactly on the records with a marked,
    non-null [email] whose text has an empty local part. *)
Lemma process_record_raises_iff (data : record) :
  NoDup (keys data) ->
  (exists e, process_record data = Raise e)
  <-> email_redactable data = false /\ marked data "email".
Proof.
  intros Hnd. split.
  - intros [e H]. now apply process_record_raises in H.
  - intros [Hbad Hm]. unfold email_redactable in Hbad.
    destruct (dict_get data "email") as [v |] eqn:Hget; [| discriminate].
    apply orb_false_iff in Hbad as [Hv Hbad]. apply negb_false_iff in Hbad.
    assert (fst (detect data) = true) as Hflag.
    { destruct (fst (detect data)) eqn:E; [reflexivity |].
      apply detect_unflagged in E. unfold marked in Hm. rewrite E in Hm.
      destruct Hm. }
    rewrite process_record_unfold, Hflag.
    destruct (redact_loop_raising_key _ (detect_NoDup data) data "email" v IndexError)
      as [e' He']; auto.
    + unfold redact_value. now apply redact_email_raises.
    + rewrite He'. cbn [bind]. eauto.
Qed.

(** ** Records without any category field *)

Lemma existsb_false {A : Type} (f : A -> bool) (xs : list A) :
  (forall x, In x xs -> f x = false) -> existsb f xs = false.
Proof.
  induction xs as [| x xs IH]; intros H; simpl; [reflexivity |].
  rewrite (H x) by now left. apply IH. intros y Hy. apply H. now right.
Qed.

Lemma filter_none {A : Type} (f : A -> bool) (xs : list A) :
  (forall x, In x xs -> f x = false) -> filter f xs = [].
Proof.
  induction xs as [| x xs IH]; intros H; simpl; [reflexivity |].
  rewrite (H x) by now left. apply IH. intros y Hy. apply H. now right.
Qed.

(** C8.  A record none of whose field names is in the standalone list
    or in the combinatorial list comes back unflagged and unchanged,
    whatever its values. *)
Theorem C8_no_category_field (data : record) :
  (forall k, In k (keys data) ->
             ~ In k STANDALONE_PII_KEYS /\ ~ In k COMBINATORIAL_PII_KEYS) ->
  process_record data = Ok (data, false).
Proof.
  intros H. rewrite process_record_unfold, detect_flag.
  rewrite existsb_false, found_combinatorial_keys_filter, filter_none;
    [reflexivity | |].
  - intros k Hk. destruct (H k Hk) as [_ Hc]. apply mem_false in Hc.
    unfold qualifies. now rewrite Hc.
  - intros [k v] Hin.
    assert (In k (keys data)) as Hk by (change k with (fst (k, v)); now apply in_map).
    destruct (H k Hk) as [Hs _]. apply mem_false in Hs.
    unfold standalone_hit. cbn [fst]. now rewrite Hs.
Qed.

Lemma C8_no_category_field_witness :
  process_record order_record = Ok (order_record, false).
Proof.
  apply C8_no_category_field.
  intros k Hk. simpl in Hk.
  destruct Hk as [<- | [<- | [<- | []]]]; split; simpl; intuition discriminate.
Defined.

(** ** Null values *)

(** C10.  A null value under a combinatorial key is collected by the
    second loop, so it counts toward the threshold of two; the third
    loop leaves it alone, and so does [process_record] whenever it
    returns.  On [null_pair] the record is flagged and comes back as it
    was. *)
Theorem C10_null_counts_but_is_skipped :
  (forall (data : record) (key : string),
      dict_get data key = Some VNull -> In key COMBINATORIAL_PII_KEYS ->
      In key (found_combinatorial_keys data)
      /\ redact_step data key = Ok data
      /\ forall out flag, process_record data = Ok (out, flag) ->
                          dict_get out key = Some VNull)
  /\ List.length (found_combinatorial_keys null_pair) = 2
  /\ process_record null_pair = Ok (null_pair, true).
Proof.
  split; [| split; reflexivity].
  intros data key Hget Hcomb. split; [| split].
  - apply found_In. split; [eapply dict_get_keys, Hget |].
    unfold qualifies. apply mem_In in Hcomb. rewrite Hcomb, Hget.
    cbn [isinstance_str]. now rewrite !andb_false_r.
  - unfold redact_step. now rewrite Hget.
  - intros out flag Hret. apply process_record_ok in Hret as [_ [_ Hout]].
    rewrite Hout, Hget. now destruct (mem key (snd (detect data))).
Qed.

Lemma C10_null_counts_but_is_skipped_witness :
  In "email" (found_combinatorial_keys null_pair)
  /\ redact_step null_pair "email" = Ok null_pair.
Proof.
  destruct (proj1 C10_null_counts_but_is_skipped null_pair "email") as [H1 [H2 _]].
  - reflexivity.
  - simpl. auto.
  - split; assumption.
Defined.

(** ** The email transform *)

Lemma string_snoc (c : ascii) (t : string) :
  exists mid b, String c t = mid ++ String b EmptyString.
Proof.
  revert c. induction t as [| c' t IH]; intros c.
  - exists EmptyString, c. reflexivity.
  - destruct (IH c') as [mid [b E]]. exists (String c mid), b.
    simpl. now rewrite <- E.
Qed.

Lemma redact_email_no_at (email : string) :
  Py.contains "@" email = false -> redact_email email = Ok "[REDACTED_EMAIL]".
Proof.
  intros H. unfold redact_email. now rewrite (split_no_sep _ _ H).
Qed.

Lemma redact_email_one_at (a b : ascii) (mid domain : string) :
  Py.contains "@" (String a (mid ++ String b EmptyString)) = false ->
  Py.contains "@" domain = false ->
  redact_email (String a (mid ++ String b EmptyString) ++ String "@" domain)
  = Ok (String a (Py.repeat_char "*" (String.length mid))
          ++ String b (String "@" domain)).
Proof.
  intros Hu Hd. unfold redact_email.
  rewrite (split_at_sep _ _ _ Hu), (split_no_sep _ _ Hd).
  cbn [Py.first bind].
  change (String a (mid ++ String b EmptyString))
    with (String a mid ++ String b EmptyString).
  rewrite last_snoc. cbn [bind try_except_ValueError].
  rewrite length_append. cbn [String.length].
  now replace (S (String.length mid) + 1 - 2) with (String.length mid) by lia.
Qed.

(** With two or more ['@'] the unpacking fails and the literal is
    returned. *)
Lemma redact_email_many_at (u d1 d2 : string) :
  Py.contains "@" u = false -> Py.contains "@" d1 = false ->
  redact_email (u ++ String "@" (d1 ++ String "@" d2)) = Ok "[REDACTED_EMAIL]".
Proof.
  intros Hu Hd. unfold redact_email.
  rewrite (split_at_sep _ _ _ Hu), (split_at_sep _ _ _ Hd).
  destruct (Py.split "@" d2) eqn:E; [now apply split_not_nil in E | reflexivity].
Qed.

(** C4.  On [user@domain] with a single ['@'] and a local part of at
    least two characters the result is the first character of the
    local part, [len(user) - 2] stars, its last character, then ['@']
    and the domain as they were; without any ['@'] the result is the
    literal [[REDACTED_EMAIL]]. *)
Theorem C4_redact_email :
  (forall user domain : string,
      Py.contains "@" user = false -> Py.contains "@" domain = false ->
      2 <= String.length user ->
      exists a b,
        Py.first user = Ok a /\ Py.last user = Ok b
        /\ redact_email (user ++ String "@" domain)
           = Ok (String a (Py.repeat_char "*" (String.length user - 2))
                   ++ String b (String "@" domain)))
  /\ (forall email : string,
         Py.contains "@" email = false ->
         redact_email email = Ok "[REDACTED_EMAIL]")
  /\ redact_email "jane.doe@example.com" = Ok "j******e@example.com".
Proof.
  split; [| split; [exact redact_email_no_at | reflexivity]].
  intros user domain Hu Hd Hlen.
  destruct user as [| a [| c t]]; simpl in Hlen; try lia.
  destruct (string_snoc c t) as [mid [b E]]. rewrite E in *.
  exists a, b. split; [reflexivity |]. split.
  - change (String a (mid ++ String b EmptyString))
      with (String a mid ++ String b EmptyString). apply last_snoc.
  - rewrite (redact_email_one_at a b mid domain Hu Hd).
    cbn [String.length]. rewrite length_append. cbn [String.length].
    now replace (S (String.length mid + 1) - 2) with (String.length mid) by lia.
Qed.

Lemma C4_redact_email_witness :
  redact_email ("ab" ++ String "@" "x.org") = Ok "ab@x.org"
  /\ redact_email "no-at-sign" = Ok "[REDACTED_EMAIL]".
Proof.
  destruct C4_redact_email as [H1 [H2 _]]. split.
  - destruct (H1 "ab" "x.org") as [a [b [Ha [Hb Hr]]]];
      [reflexivity | reflexivity | simpl; lia |].
    injection Ha as <-. injection Hb as <-. exact Hr.
  - apply H2. reflexivity.
Defined.

(** ** The combinatorial threshold *)





(** ** Values that are not strings *)





(** ** Names *)

Lemma space_is_whitespace (s : string) :
  Py.contains " " s = true -> has_whitespace s = true.
Proof.
  induction s as [| c t IH]; simpl; [discriminate |].
  intros H. apply orb_true_iff in H as [H | H].
  - apply Ascii.eqb_eq in H. subst c. reflexivity.
  - rewrite (IH H). apply orb_true_r.
Qed.

Lemma name_qualifies (data : record) (s : string) :
  dict_get data "name" = Some (VStr s) ->
  qualifies data "name" = Py.contains " " s.
Proof.
  intros Hget. unfold qualifies. rewrite Hget.
  change (mem "name" COMBINATORIAL_PII_KEYS) with true.
  change (String.eqb "name" "name") with true.
  change (String.eqb "name" "address") with false.
  cbn [isinstance_str py_str andb negb]. rewrite negb_involutive. apply andb_true_r.
Qed.

(** C6, as stated, fails on a name whose tokens are separated by a
    tab: [split()] sees two tokens, yet the second loop skips the key,
    and [tabbed_name] is left with a single qualifying field. *)
Lemma C6_tab_separated_name :
  Py.split_ws ("Madhav" ++ String tab "Rao") = ["Madhav"; "Rao"]
  /\ ~ In "name" (found_combinatorial_keys tabbed_name)
  /\ process_record tabbed_name = Ok (tabbed_name, false).
Proof.
  split; [reflexivity |]. split; [| reflexivity].
  simpl. intros [H | []]. discriminate.
Qed.

(** C6, amended.  A [name] string without a space character, and so in
    particular one without any whitespace, is not collected by the
    second loop; one with a space character is.  [redact_name] returns
    the whitespace-separated tokens, each cut down to its first
    character followed by one star per further character, joined by
    single spaces.  [madhav_rao] is flagged, its name becoming
    [M***** R**]. *)
Theorem C6_name (data : record) (s : string) :
  dict_get data "name" = Some (VStr s) ->
  (has_whitespace s = false -> ~ In "name" (found_combinatorial_keys data))
  /\ (Py.contains " " s = false -> ~ In "name" (found_combinatorial_keys data))
  /\ (Py.contains " " s = true -> In "name" (found_combinatorial_keys data))
  /\ redact_name s = Ok (Py.join " " (map star_token (Py.split_ws s)))
  /\ process_record madhav_rao
     = Ok ([("name", VStr "M***** R**"); ("address", VStr "[REDACTED_ADDRESS]")],
           true).
Proof.
  intros Hget.
  assert (Py.contains " " s = false -> ~ In "name" (found_combinatorial_keys data))
    as Hno.
  { intros H Hin. apply found_In in Hin as [_ Hq].
    rewrite (name_qualifies data s Hget) in Hq. congruence. }
  split; [| split; [exact Hno | split; [| split]]].
  - intros Hws. apply Hno. destruct (Py.contains " " s) eqn:E; [| reflexivity].
    apply space_is_whitespace in E. congruence.
  - intros H. apply found_In. split; [eapply dict_get_keys, Hget |].
    now rewrite (name_qualifies data s Hget).
  - apply redact_name_ok.
  - reflexivity.
Qed.

Lemma C6_name_witness :
  In "name" (found_combinatorial_keys madhav_rao)
  /\ redact_name "Madhav Rao" = Ok "M***** R**".
Proof.
  destruct (C6_name madhav_rao "Madhav Rao") as [_ [_ [H1 [H2 _]]]].
  - reflexivity.
  - split; [apply H1; reflexivity | exact H2].
Defined.

(** ** The digit patterns *)

Lemma times_round_nil {A : Type} (f : A -> list A) (n : nat) :
  Re.times n (flat_map f) [] = [].
Proof. induction n; simpl; auto. Qed.

Lemma times_class (p : ascii -> bool) (n : nat) (st : Re.state) :
  Re.times n (flat_map (Re.run (Re.Class p))) [st] = positions (eat p n st).
Proof.
  revert st. induction n as [| n IH]; intros [prev s]; [reflexivity |].
  cbn [Re.times eat flat_map snd]. rewrite app_nil_r.
  destruct s as [| c t].
  - apply times_round_nil.
  - change (Re.run (Re.Class p) (prev, String c t))
      with (if p c then [(Some c, t)] else []).
    destruct (p c); [apply IH | apply times_round_nil].
Qed.

Lemma run_cat (r1 r2 : Re.regex) (st : Re.state) :
  Re.run (Re.Cat r1 r2) st = flat_map (Re.run r2) (Re.run r1 st).
Proof. reflexivity. Qed.

Lemma run_boundary (st : Re.state) :
  Re.run Re.WordBoundary st = if Re.at_boundary st then [st] else [].
Proof. reflexivity. Qed.

Lemma run_exactly_class (p : ascii -> bool) (n : nat) (st : Re.state) :
  Re.run (Re.exactly n (Re.Class p)) st = positions (eat p n st).
Proof.
  change (Re.run (Re.exactly n (Re.Class p)) st)
    with (Re.upto (n - n) (flat_map (Re.run (Re.Class p)))
            (Re.times n (flat_map (Re.run (Re.Class p))) [st])).
  rewrite Nat.sub_diag. cbn [Re.upto].
  now rewrite app_nil_r, times_class.
Qed.

Lemma eat_sound (p : ascii -> bool) (n : nat) (st st' : Re.state) :
  eat p n st = Some st' ->
  exists pre, snd st = pre ++ snd st' /\ String.length pre = n
              /\ all_chars p pre = true
              /\ (0 < n -> exists c, fst st' = Some c /\ p c = true).
Proof.
  revert st. induction n as [| n IH]; intros st; cbn [eat].
  - intros [= <-]. exists EmptyString. repeat split. lia.
  - destruct (snd st) as [| c t] eqn:Es; [discriminate |].
    destruct (p c) eqn:Ep; [| discriminate].
    intros H. pose proof H as H0. apply IH in H as [pre [Hs [Hl [Ha Hlast]]]].
    cbn [snd] in Hs. exists (String c pre). cbn [String.length all_chars].
    rewrite Ep, Ha, Hl, Hs. repeat split. intros _.
    destruct n as [| n']; [| apply Hlast; lia].
    cbn [eat] in H0. injection H0 as <-. exists c. auto.
Qed.

Lemma eat_complete (p : ascii -> bool) (pre rest : string) (prev : option ascii) :
  all_chars p pre = true ->
  exists prev', eat p (String.length pre) (prev, pre ++ rest) = Some (prev', rest).
Proof.
  revert prev. induction pre as [| c t IH]; intros prev; cbn [all_chars].
  - intros _. exists prev. reflexivity.
  - intros H. apply andb_true_iff in H as [Hc Ht].
    destruct (IH (Some c) Ht) as [prev' E]. exists prev'.
    cbn [String.length eat snd]. change (String c t ++ rest) with (String c (t ++ rest)).
    cbn iota. now rewrite Hc.
Qed.

Lemma digit_is_word (c : ascii) : Py.is_digit c = true -> Re.is_word c = true.
Proof. intros H. unfold Re.is_word. now rewrite H. Qed.

(** A full match of [\b\d{n}\b] is a string of exactly [n] digits. *)
Lemma fullmatch_digits (n : nat) (s : string) :
  0 < n ->
  Re.fullmatch (digits_pattern n) s
  = Nat.eqb (String.length s) n && all_chars Py.is_digit s.
Proof.
  intros Hn. unfold Re.fullmatch, digits_pattern.
  rewrite run_cat, run_boundary.
  destruct (Nat.eqb (String.length s) n && all_chars Py.is_digit s) eqn:E.
  - apply andb_true_iff in E as [Hl Ha]. apply Nat.eqb_eq in Hl. subst n.
    destruct s as [| c t]; [simpl in Hn; lia |].
    pose proof Ha as Ha'. cbn [all_chars] in Ha'. apply andb_true_iff in Ha' as [Hc _].
    unfold Re.at_boundary at 1, Re.word_before, Re.word_after. cbn [fst snd].
    rewrite (digit_is_word c Hc). cbn [xorb flat_map]. rewrite app_nil_r.
    rewrite run_cat, run_exactly_class.
    destruct (eat_complete Py.is_digit (String c t) EmptyString None Ha) as [prev' Hp].
    assert (String c t ++ EmptyString = String c t) as Happ.
    { clear. induction (String c t); simpl; congruence. }
    rewrite Happ in Hp. rewrite Hp.
    apply eat_sound in Hp as [_ [_ [_ [_ Hlast]]]].
    destruct (Hlast Hn) as [c' [Hc' Hd]]. cbn [fst] in Hc'. subst prev'.
    cbn [positions flat_map]. rewrite run_boundary.
    unfold Re.at_boundary, Re.word_before, Re.word_after.
    cbn [fst snd]. rewrite (digit_is_word c' Hd). reflexivity.
  - destruct (Re.at_boundary (None, s)); [| reflexivity].
    cbn [flat_map]. rewrite app_nil_r, run_cat, run_exactly_class.
    destruct (eat Py.is_digit n (None, s)) as [[prev' rest] |] eqn:Ee; [| reflexivity].
    cbn [positions flat_map]. rewrite app_nil_r, run_boundary.
    destruct (Re.at_boundary (prev', rest)); [| reflexivity].
    cbn [existsb]. unfold Re.at_end. cbn [snd]. rewrite orb_false_r.
    destruct rest; [| reflexivity]. exfalso.
    apply eat_sound in Ee as [pre [Hs [Hl [Ha _]]]]. cbn [snd] in Hs.
    assert (pre ++ EmptyString = pre) as Happ.
    { clear. induction pre; simpl; congruence. }
    rewrite Happ in Hs. subst pre. rewrite Hl, Nat.eqb_refl, Ha in E. discriminate.
Qed.

Lemma phone_hit (s : string) :
  standalone_hit ("phone", VStr s)
  = Nat.eqb (String.length s) 10 && all_chars Py.is_digit s.
Proof.
  unfold standalone_hit. cbn [fst snd isinstance_str py_str].
  change (mem "phone" STANDALONE_PII_KEYS) with true.
  change (dict_get REGEX_PATTERNS "phone") with (Some (digits_pattern 10)).
  cbn [andb]. apply fullmatch_digits. lia.
Qed.

Lemma redact_phone_ten (s : string) :
  String.length s = 10 ->
  redact_phone s = Py.take 2 s ++ "XXXXXX" ++ Py.drop 8 s.
Proof. intros H. unfold redact_phone, Py.suffix. now rewrite H. Qed.

(** What the claim about phones comes to on the records on which
    [process_record] returns: ten digits under [phone] flag the record
    and are masked to two digits, six X and two digits. *)
Lemma phone_flagged (data : record) (s : string) :
  NoDup (keys data) -> email_redactable data = true ->
  dict_get data "phone" = Some (VStr s) ->
  String.length s = 10 -> all_chars Py.is_digit s = true ->
  exists out,
    process_record data = Ok (out, true)
    /\ dict_get out "phone" = Some (VStr (Py.take 2 s ++ "XXXXXX" ++ Py.drop 8 s)).
Proof.
  intros Hnd Hemail Hget Hlen Hdig.
  assert (standalone_hit ("phone", VStr s) = true) as Hhit.
  { rewrite phone_hit, Hlen, Hdig. reflexivity. }
  assert (In "phone" (snd (standalone_pass data))) as Hs.
  { apply standalone_pass_keys. exists (VStr s). split; [| exact Hhit].
    now apply dict_get_In. }
  destruct (process_record_returns data Hnd Hemail) as [out Hret].
  assert (fst (detect data) = true) as Hflag.
  { rewrite detect_flag. apply orb_true_iff. left. apply existsb_exists.
    exists ("phone", VStr s). split; [now apply dict_get_In | exact Hhit]. }
  rewrite Hflag in Hret. exists out. split; [exact Hret |].
  apply process_record_ok in Hret as [_ [_ Hout]]. rewrite Hout, Hget.
  assert (mem "phone" (snd (detect data)) = true) as ->.
  { apply mem_In, detect_keys. now left. }
  cbn [option_map]. unfold redacted, redact_value. cbn [is_None py_str].
  change (dict_get REDACTION_MAPPING "phone") with (Some (total redact_phone)).
  unfold total. now rewrite redact_phone_ten.
Qed.

(** Digits in any other number are not marked by the first loop. *)
Lemma phone_not_flagged (data : record) (s : string) :
  NoDup (keys data) -> dict_get data "phone" = Some (VStr s) ->
  String.length s <> 10 ->
  ~ In "phone" (snd (standalone_pass data)).
Proof.
  intros Hnd Hget Hlen Hin.
  apply standalone_pass_keys in Hin as [v [Hin Hhit]].
  apply (In_dict_get _ _ _ Hnd) in Hin. assert (v = VStr s) as -> by congruence.
  rewrite phone_hit in Hhit. apply andb_true_iff in Hhit as [Hl _].
  apply Nat.eqb_eq in Hl. contradiction.
Qed.

(** ** An email with an empty local part *)

(** C3.  The transforms are not total, and neither is
    [process_record]: [redact_email] passes the [IndexError] of
    [user[0]] through its [except ValueError], [redact_passport] indexes
    the empty string, and on [bad_email], a mapping from field names to
    strings, [process_record] raises. *)
Theorem C3_process_record_raises :
  redact_email "@example.com" = Raise IndexError
  /\ redact_passport EmptyString = Raise IndexError
  /\ process_record bad_email = Raise IndexError.
Proof. repeat split. Qed.

(** C5.  On [phone_and_bad_email] the phone is ten digits and is marked
    by the first loop, yet [process_record] returns no flag and no
    record: the redaction of the email raises. *)
Theorem C5_phone_with_bad_email :
  dict_get phone_and_bad_email "phone" = Some (VStr "9876543210")
  /\ In "phone" (snd (standalone_pass phone_and_bad_email))
  /\ process_record phone_and_bad_email = Raise IndexError.
Proof. repeat split. simpl. auto. Qed.

(** C7.  On [upi_and_bad_email] the UPI identifier matches its pattern,
    yet [process_record] returns no flag and no record: the redaction
    of the email raises. *)
Theorem C7_upi_with_bad_email :
  Re.fullmatch upi_id_pattern "user@bank" = true
  /\ process_record upi_and_bad_email = Raise IndexError.
Proof. split; reflexivity. Qed.

(** Every standalone key but [upi_id] has an entry in
    [REDACTION_MAPPING]. *)
Lemma standalone_transforms (k : string) :
  In k STANDALONE_PII_KEYS ->
  (dict_get REDACTION_MAPPING k = None <-> k = "upi_id").
Proof.
  simpl. intros [<- | [<- | [<- | [<- | []]]]]; simpl; split;
    solve [discriminate | reflexivity].
Qed.

(** What the claim about UPI identifiers comes to on the records on
    which [process_record] returns. *)
Lemma upi_flagged (data : record) (s : string) :
  NoDup (keys data) -> email_redactable data = true ->
  dict_get data "upi_id" = Some (VStr s) ->
  Re.fullmatch upi_id_pattern s = true ->
  exists out,
    process_record data = Ok (out, true)
    /\ dict_get out "upi_id" = Some (VStr "[REDACTED_UPI_ID]").
Proof.
  intros Hnd Hemail Hget Hmatch.
  assert (standalone_hit ("upi_id", VStr s) = true) as Hhit by exact Hmatch.
  destruct (process_record_returns data Hnd Hemail) as [out Hret].
  assert (fst (detect data) = true) as Hflag.
  { rewrite detect_flag. apply orb_true_iff. left. apply existsb_exists.
    exists ("upi_id", VStr s). split; [now apply dict_get_In | exact Hhit]. }
  rewrite Hflag in Hret. exists out. split; [exact Hret |].
  apply process_record_ok in Hret as [_ [_ Hout]]. rewrite Hout, Hget.
  assert (mem "upi_id" (snd (detect data)) = true) as ->.
  { apply mem_In, detect_keys. left. apply standalone_pass_keys.
    exists (VStr s). split; [now apply dict_get_In | exact Hhit]. }
  reflexivity.
Qed.


(** What the frame claim comes to on the records on which
    [process_record] returns: an unmarked field keeps its value, and
    the keys are the same. *)
Lemma frame_when_returns (data out : record) (flag : bool) (k : string) :
  process_record data = Ok (out, flag) -> ~ marked data k ->
  dict_get out k = dict_get data k.
Proof.
  intros Hret Hnm. apply process_record_ok in Hret as [_ [_ Hout]].
  rewrite Hout. apply mem_false in Hnm. now rewrite Hnm.
Qed.

Lemma frame_returns (data : record) :
  NoDup (keys data) -> email_redactable data = true ->
  exists out flag,
    process_record data = Ok (out, flag)
    /\ keys out = keys data
    /\ forall k, ~ marked data k -> dict_get out k = dict_get data k.
Proof.
  intros Hnd Hemail. destruct (process_record_returns data Hnd Hemail) as [out Hret].
  exists out, (fst (detect data)). split; [exact Hret |].
  split; [now apply process_record_ok in Hret |].
  intros k. now apply (frame_when_returns data out (fst (detect data))).
Qed.

(** ** The order in which the third loop runs *)








(** ** The scenarios of the specification *)

Example scenario_phone :
  process_record [("phone", VStr "9876543210")]
  = Ok ([("phone", VStr "98XXXXXX10")], true).
Proof. reflexivity. Qed.

Example scenario_aadhar :
  process_record [("aadhar", VStr "123412341234")]
  = Ok ([("aadhar", VStr "XXXXXXXX1234")], true).
Proof. reflexivity. Qed.

Example scenario_email_ip :
  process_record email_and_ip
  = Ok ([("email", VStr "j******e@example.com");
         ("ip_address", VStr "[REDACTED_IP_ADDRESS]")], true).
Proof. reflexivity. Qed.

Example scenario_single_name :
  process_record [("name", VStr "Madhav")] = Ok ([("name", VStr "Madhav")], false).
Proof. reflexivity. Qed.

Example scenario_upi :
  process_record [("upi_id", VStr "user@bank")]
  = Ok ([("upi_id", VStr "[REDACTED_UPI_ID]")], true).
Proof. reflexivity. Qed.

Example scenario_passport :
  process_record [("passport", VStr "A1234567")]
  = Ok ([("passport", VStr "AXXXXX67")], true).
Proof. reflexivity. Qed.

Example scenario_short_phone :
  process_record [("phone", VStr "987654321")]
  = Ok ([("phone", VStr "987654321")], false).
Proof. reflexivity. Qed.

Example scenario_short_address :
  process_record [("email", VStr "a@b.co"); ("address", VStr "Baker Street")]
  = Ok ([("email", VStr "a@b.co"); ("address", VStr "Baker Street")], false).
Proof. reflexivity. Qed.

(** * Further properties of [process_record] *)

(** ** Which keys get marked *)

Lemma standalone_keys_standalone (data : record) (k : string) :
  In k (snd (standalone_pass data)) -> In k STANDALONE_PII_KEYS.
Proof.
  intros H. apply standalone_pass_keys in H as [v [_ Hhit]].
  unfold standalone_hit in Hhit. cbn [fst snd] in Hhit.
  apply andb_true_iff in Hhit as [Hhit _]. apply andb_true_iff in Hhit as [Hhit _].
  now apply mem_In.
Qed.

Lemma category_lists_disjoint (k : string) :
  In k STANDALONE_PII_KEYS -> In k COMBINATORIAL_PII_KEYS -> False.
Proof.
  simpl. intros [<- | [<- | [<- | [<- | []]]]] H;
    repeat (destruct H as [H | H]; [discriminate |]); exact H.
Qed.

(** A key is marked either by a standalone match of its own value or
    as one of at least two qualifying combinatorial keys, never both. *)
Lemma marked_cases (data : record) (k : string) :
  NoDup (keys data) ->
  marked data k ->
  (In k STANDALONE_PII_KEYS
   /\ exists v, dict_get data k = Some v /\ standalone_hit (k, v) = true)
  \/ (In k COMBINATORIAL_PII_KEYS
      /\ 2 <= List.length (found_combinatorial_keys data)
      /\ In k (found_combinatorial_keys data)).
Proof.
  intros Hnd Hm. apply detect_keys in Hm as [Hs | [Hlen Hc]].
  - left. split; [now apply (standalone_keys_standalone data) |].
    apply standalone_pass_keys in Hs as [v [Hin Hhit]].
    exists v. split; [now apply In_dict_get | exact Hhit].
  - right. split; [now apply (found_combinatorial data) | auto].
Qed.

Lemma qualifies_unfiltered (data : record) (k : string) (v : value) :
  In k ["email"; "ip_address"; "device_id"] ->
  dict_get data k = Some v -> qualifies data k = true.
Proof.
  intros Hk Hget. unfold qualifies. rewrite Hget.
  simpl in Hk. destruct Hk as [<- | [<- | [<- | []]]]; reflexivity.
Qed.

Lemma address_qualifies (data : record) (s : string) :
  dict_get data "address" = Some (VStr s) ->
  qualifies data "address" = Nat.leb 3 (List.length (Py.split_ws s)).
Proof.
  intros Hget. unfold qualifies. rewrite Hget.
  change (mem "address" COMBINATORIAL_PII_KEYS) with true.
  change (String.eqb "address" "name") with false.
  change (String.eqb "address" "address") with true.
  cbn [isinstance_str py_str andb negb].
  rewrite Nat.ltb_antisym. apply negb_involutive.
Qed.

(** X1.  Whenever [process_record] returns, the record has the same
    keys in the same order as its input, and each value is either the
    input value or a string written over a non-null input value: no
    field is added, dropped, moved or set to anything but a string. *)
Theorem X1_same_fields (data out : record) (flag : bool) :
  process_record data = Ok (out, flag) ->
  keys out = keys data
  /\ forall k,
       dict_get out k = dict_get data k
       \/ exists v r, dict_get data k = Some v /\ is_None v = false
                      /\ dict_get out k = Some (VStr r).
Proof.
  intros Hret. apply process_record_ok in Hret as [_ [Hkeys Hout]].
  split; [exact Hkeys |]. intros k. rewrite Hout.
  destruct (mem k (snd (detect data))); [| now left].
  destruct (dict_get data k) as [v |]; [| now left].
  cbn [option_map]. unfold redacted.
  destruct (is_None v) eqn:Ev; [now left |].
  destruct (redact_value k (py_str v)) as [r | e]; [| now left].
  right. exists v, r. auto.
Qed.

Lemma X1_same_fields_witness :
  keys [("email", VStr "j******e@example.com");
        ("ip_address", VStr "[REDACTED_IP_ADDRESS]")]
  = keys email_and_ip.
Proof.
  apply (X1_same_fields email_and_ip _ true). reflexivity.
Defined.





(** X4.  The flag [process_record] returns is true exactly when some
    item is a standalone match or at least two combinatorial keys
    qualify. *)
Theorem X4_flag (data out : record) (flag : bool) :
  process_record data = Ok (out, flag) ->
  flag = (existsb standalone_hit data
          || Nat.leb 2 (List.length (found_combinatorial_keys data)))%bool.
Proof.
  intros Hret. apply process_record_ok in Hret as [-> _]. apply detect_flag.
Qed.

Lemma X4_flag_witness :
  true = (existsb standalone_hit phone_and_email
          || Nat.leb 2 (List.length (found_combinatorial_keys phone_and_email)))%bool.
Proof.
  apply (X4_flag phone_and_email
           [("phone", VStr "98XXXXXX10"); ("email", VStr "jane.doe@example.com")]).
  reflexivity.
Defined.

(** X5.  A record returned with the flag false is the input record,
    untouched. *)
Theorem X5_unflagged_unchanged (data out : record) :
  process_record data = Ok (out, false) -> out = data.
Proof.
  rewrite process_record_unfold. destruct (fst (detect data)).
  - destruct (redact_loop (snd (detect data)) data); cbn [bind]; discriminate.
  - now intros [= <-].
Qed.

Lemma X5_unflagged_unchanged_witness : embedded_phone = embedded_phone.
Proof.
  apply (X5_unflagged_unchanged embedded_phone embedded_phone). reflexivity.
Defined.

(** X6.  A string under [address] is collected by the second loop
    exactly when [split()] cuts it into three tokens or more. *)
Theorem X6_address_filter (data : record) (s : string) :
  dict_get data "address" = Some (VStr s) ->
  (In "address" (found_combinatorial_keys data)
   <-> 3 <= List.length (Py.split_ws s)).
Proof.
  intros Hget. rewrite found_In, (address_qualifies data s Hget), Nat.leb_le.
  split; [tauto | intros H; split; [eapply dict_get_keys, Hget | exact H]].
Qed.

Lemma X6_address_filter_witness :
  ~ In "address" (found_combinatorial_keys short_address)
  /\ In "address" (found_combinatorial_keys long_address).
Proof.
  split.
  - intros H. apply (X6_address_filter short_address "Baker Street") in H;
      [simpl in H; lia | reflexivity].
  - apply (X6_address_filter long_address "221B Baker Street");
      [reflexivity | simpl; lia].
Defined.

(** X7.  Whatever is stored under [email], [ip_address] or
    [device_id], of any type and any content, is collected by the
    second loop: the patterns the table holds for [email] and
    [ip_address] are not consulted. *)
Theorem X7_unfiltered_keys (data : record) (k : string) (v : value) :
  In k ["email"; "ip_address"; "device_id"] ->
  dict_get data k = Some v ->
  In k (found_combinatorial_keys data).
Proof.
  intros Hk Hget. apply found_In. split; [eapply dict_get_keys, Hget |].
  now apply (qualifies_unfiltered data k v).
Qed.

Lemma X7_unfiltered_keys_witness :
  In "email" (found_combinatorial_keys free_text_pair)
  /\ Re.fullmatch email_pattern "not an email" = false.
Proof.
  split; [| reflexivity].
  apply (X7_unfiltered_keys free_text_pair "email" (VStr "not an email"));
    [simpl; auto | reflexivity].
Defined.

(** X8.  With fewer than two qualifying combinatorial keys, no
    combinatorial field is rewritten, even in a record that a
    standalone match flags. *)
Theorem X8_lone_combinatorial_kept (data out : record) (flag : bool) (k : string) :
  process_record data = Ok (out, flag) ->
  List.length (found_combinatorial_keys data) < 2 ->
  In k COMBINATORIAL_PII_KEYS ->
  dict_get out k = dict_get data k.
Proof.
  intros Hret Hlen Hk. apply (frame_when_returns data out flag k Hret).
  intros Hm. apply detect_keys in Hm as [Hs | [Hlen' _]]; [| lia].
  apply standalone_keys_standalone in Hs.
  exact (category_lists_disjoint k Hs Hk).
Qed.

Lemma X8_lone_combinatorial_kept_witness :
  dict_get [("phone", VStr "98XXXXXX10"); ("email", VStr "jane.doe@example.com")]
    "email"
  = dict_get phone_and_email "email".
Proof.
  apply (X8_lone_combinatorial_kept phone_and_email _ true "email").
  - reflexivity.
  - simpl. lia.
  - simpl. auto.
Defined.

(** X9.  A field whose key is not combinatorial and whose value is not
    a standalone match, such as a phone number inside a longer text or
    a field of no category at all, comes back with its input value. *)
Theorem X9_unmatched_kept (data out : record) (flag : bool) (k : string) (v : value) :
  NoDup (keys data) ->
  process_record data = Ok (out, flag) ->
  dict_get data k = Some v ->
  ~ In k COMBINATORIAL_PII_KEYS ->
  standalone_hit (k, v) = false ->
  dict_get out k = Some v.
Proof.
  intros Hnd Hret Hget Hk Hhit.
  rewrite (frame_when_returns data out flag k Hret); [exact Hget |].
  intros Hm. apply (marked_cases data k Hnd) in Hm as [[_ [v' [Hget' Hhit']]] | [Hc _]].
  - congruence.
  - contradiction.
Qed.

Lemma X9_unmatched_kept_witness :
  dict_get embedded_phone "phone" = Some (VStr "call 9876543210").
Proof.
  apply (X9_unmatched_kept embedded_phone embedded_phone false "phone").
  - repeat constructor; simpl; intuition discriminate.
  - reflexivity.
  - reflexivity.
  - simpl. intuition discriminate.
  - reflexivity.
Defined.

(** ** The aadhar and passport categories *)

Lemma string_app_nil_r (s : string) : s ++ EmptyString = s.
Proof. induction s; simpl; congruence. Qed.

Lemma string_app_assoc (a b c : string) : (a ++ b) ++ c = a ++ (b ++ c).
Proof. induction a; simpl; congruence. Qed.

Lemma all_chars_app (p : ascii -> bool) (a b : string) :
  all_chars p (a ++ b) = all_chars p a && all_chars p b.
Proof.
  induction a as [| c a IH]; simpl; [reflexivity |].
  now rewrite IH, andb_assoc.
Qed.

(** The end of a fixed-length digit pattern: [\d{n}\b] up to the end of
    the input, after a character already read. *)
Lemma digits_to_end (n : nat) (prev : option ascii) (t : string) :
  0 < n ->
  existsb Re.at_end
    (flat_map (Re.run Re.WordBoundary) (positions (eat Py.is_digit n (prev, t))))
  = Nat.eqb (String.length t) n && all_chars Py.is_digit t.
Proof.
  intros Hn.
  destruct (Nat.eqb (String.length t) n && all_chars Py.is_digit t) eqn:E.
  - apply andb_true_iff in E as [Hl Ha]. apply Nat.eqb_eq in Hl. subst n.
    destruct (eat_complete Py.is_digit t EmptyString prev Ha) as [prev' Hp].
    rewrite string_app_nil_r in Hp. rewrite Hp.
    apply eat_sound in Hp as [_ [_ [_ [_ Hlast]]]].
    destruct (Hlast Hn) as [c' [Hc' Hd]]. cbn [fst] in Hc'. subst prev'.
    cbn [positions flat_map]. rewrite run_boundary.
    unfold Re.at_boundary, Re.word_before, Re.word_after.
    cbn [fst snd]. rewrite (digit_is_word c' Hd). reflexivity.
  - destruct (eat Py.is_digit n (prev, t)) as [[prev' rest] |] eqn:Ee; [| reflexivity].
    cbn [positions flat_map]. rewrite app_nil_r, run_boundary.
    destruct (Re.at_boundary (prev', rest)); [| reflexivity].
    cbn [existsb]. unfold Re.at_end. cbn [snd]. rewrite orb_false_r.
    destruct rest; [| reflexivity]. exfalso.
    apply eat_sound in Ee as [pre [Hs [Hl [Ha _]]]]. cbn [snd] in Hs.
    rewrite string_app_nil_r in Hs. subst pre.
    rewrite Hl, Nat.eqb_refl, Ha in E. discriminate.
Qed.

Lemma upper_is_word (c : ascii) : Py.is_upper c = true -> Re.is_word c = true.
Proof.
  intros H. unfold Re.is_word. rewrite H. now rewrite orb_true_r.
Qed.

(** A full match of the passport pattern is a capital letter followed
    by seven digits. *)
Lemma fullmatch_passport (s : string) :
  Re.fullmatch passport_pattern s = passport_shape s.
Proof.
  unfold Re.fullmatch, passport_pattern. rewrite run_cat, run_boundary.
  destruct s as [| c t]; [reflexivity |].
  unfold Re.at_boundary at 1, Re.word_before, Re.word_after. cbn [fst snd xorb].
  unfold passport_shape. destruct (Py.is_upper c) eqn:Ec.
  - rewrite (upper_is_word c Ec). cbn [flat_map andb]. rewrite app_nil_r.
    rewrite run_cat, run_exactly_class. cbn [eat snd]. rewrite Ec.
    cbn [positions flat_map]. rewrite app_nil_r, run_cat, run_exactly_class.
    apply digits_to_end. lia.
  - cbn [andb]. destruct (Re.is_word c); [| reflexivity].
    cbn [flat_map]. rewrite app_nil_r, run_cat, run_exactly_class.
    cbn [eat snd]. rewrite Ec. reflexivity.
Qed.

Lemma aadhar_hit (s : string) :
  standalone_hit ("aadhar", VStr s)
  = Nat.eqb (String.length s) 12 && all_chars Py.is_digit s.
Proof.
  unfold standalone_hit. cbn [fst snd isinstance_str py_str].
  change (mem "aadhar" STANDALONE_PII_KEYS) with true.
  change (dict_get REGEX_PATTERNS "aadhar") with (Some (digits_pattern 12)).
  cbn [andb]. apply fullmatch_digits. lia.
Qed.

Lemma passport_hit (s : string) :
  standalone_hit ("passport", VStr s) = passport_shape s.
Proof.
  unfold standalone_hit. cbn [fst snd isinstance_str py_str].
  change (mem "passport" STANDALONE_PII_KEYS) with true.
  change (dict_get REGEX_PATTERNS "passport") with (Some passport_pattern).
  cbn [andb]. apply fullmatch_passport.
Qed.







(** ** What is left to detect after redaction *)

(** No mask written for a standalone key matches that key's pattern. *)
Lemma mask_is_no_match (k s r : string) :
  In k STANDALONE_PII_KEYS -> redact_value k s = Ok r ->
  standalone_hit (k, VStr r) = false.
Proof.
  unfold redact_value. simpl.
  intros [<- | [<- | [<- | [<- | []]]]].
  - change (dict_get REDACTION_MAPPING "phone") with (Some (total redact_phone)).
    unfold total, redact_phone. intros [= <-].
    rewrite phone_hit, all_chars_app.
    replace (all_chars Py.is_digit ("XXXXXX" ++ Py.suffix 2 s)) with false
      by reflexivity.
    now rewrite !andb_false_r.
  - change (dict_get REDACTION_MAPPING "aadhar") with (Some (total redact_aadhar)).
    unfold total, redact_aadhar. intros [= <-].
    rewrite aadhar_hit.
    replace (all_chars Py.is_digit ("XXXXXXXX" ++ Py.suffix 4 s)) with false
      by reflexivity.
    apply andb_false_r.
  - change (dict_get REDACTION_MAPPING "passport") with (Some redact_passport).
    unfold redact_passport. destruct s as [| c t]; [discriminate |].
    cbn [Py.first bind]. intros [= <-].
    rewrite passport_hit. cbn [passport_shape].
    replace (all_chars Py.is_digit ("XXXXX" ++ Py.suffix 2 (String c t))) with false
      by reflexivity.
    apply andb_false_r.
  - change (dict_get REDACTION_MAPPING "upi_id") with (@None (string -> result string)).
    intros [= <-]. reflexivity.
Qed.

Lemma standalone_hit_shape (k : string) (v : value) :
  standalone_hit (k, v) = true ->
  In k STANDALONE_PII_KEYS /\ exists s, v = VStr s.
Proof.
  unfold standalone_hit. cbn [fst snd]. intros H.
  apply andb_true_iff in H as [H _]. apply andb_true_iff in H as [Hk Hv].
  split; [now apply mem_In |]. destruct v; try discriminate. eauto.
Qed.

Lemma output_has_no_match (data out : record) (flag : bool) :
  NoDup (keys data) ->
  process_record data = Ok (out, flag) ->
  existsb standalone_hit out = false.
Proof.
  intros Hnd Hret. apply process_record_ok in Hret as [_ [Hkeys Hout]].
  apply existsb_false. intros [k v] Hin.
  destruct (standalone_hit (k, v)) eqn:Hhit; [| reflexivity]. exfalso.
  assert (dict_get out k = Some v) as Hget.
  { apply In_dict_get; [now rewrite Hkeys | exact Hin]. }
  destruct (standalone_hit_shape k v Hhit) as [Hk [r ->]].
  rewrite Hout in Hget. destruct (mem k (snd (detect data))) eqn:Hm.
  - apply mem_In in Hm.
    apply (marked_cases data k Hnd) in Hm as [[_ [v0 [Hget0 Hhit0]]] | [Hc _]];
      [| exact (category_lists_disjoint k Hk Hc)].
    destruct (standalone_hit_shape k v0 Hhit0) as [_ [s ->]].
    rewrite Hget0 in Hget. cbn [option_map] in Hget. unfold redacted in Hget.
    cbn [is_None py_str] in Hget.
    destruct (redact_value k s) as [r' | e] eqn:Er.
    + injection Hget as <-. rewrite (mask_is_no_match k s r' Hk Er) in Hhit.
      discriminate.
    + apply redact_value_exn in Er as [_ [[-> _] | [-> ->]]].
      * simpl in Hk. repeat (destruct Hk as [Hk | Hk]; [discriminate |]).
        destruct Hk.
      * discriminate.
  - apply mem_false in Hm. apply Hm. apply detect_keys. left.
    apply standalone_pass_keys. exists (VStr r). split; [| exact Hhit].
    now apply dict_get_In.
Qed.

(** X12.  In the record [process_record] returns, no item is a
    standalone match any more: every phone, aadhar, passport or UPI
    value that matched its pattern has been replaced by a mask that
    does not, so that a second run finds nothing for its first loop. *)
Theorem X12_no_match_left (data out : record) (flag : bool) :
  NoDup (keys data) ->
  process_record data = Ok (out, flag) ->
  existsb standalone_hit out = false
  /\ snd (standalone_pass out) = [].
Proof.
  intros Hnd Hret. pose proof (output_has_no_match data out flag Hnd Hret) as H.
  split; [exact H |]. apply standalone_pass_none. now rewrite standalone_pass_flag.
Qed.

Lemma X12_no_match_left_witness :
  existsb standalone_hit
    [("phone", VStr "98XXXXXX10"); ("email", VStr "jane.doe@example.com")]
  = false.
Proof.
  apply (X12_no_match_left phone_and_email _ true).
  - repeat constructor; simpl; intuition discriminate.
  - reflexivity.
Defined.

(** ** Running the transforms on their own output *)

Lemma contains_app (c : ascii) (a b : string) :
  Py.contains c (a ++ b) = Py.contains c a || Py.contains c b.
Proof.
  induction a as [| x a IH]; simpl; [reflexivity |].
  now rewrite IH, orb_assoc.
Qed.

Lemma contains_repeat (c x : ascii) (n : nat) :
  Ascii.eqb x c = false -> Py.contains c (Py.repeat_char x n) = false.
Proof. intros H. induction n; simpl; [reflexivity | now rewrite H]. Qed.

Lemma length_repeat_char (c : ascii) (n : nat) :
  String.length (Py.repeat_char c n) = n.
Proof. induction n; simpl; congruence. Qed.

Lemma split_pieces (sep : ascii) (s : string) :
  Forall (fun p => Py.contains sep p = false) (Py.split sep s).
Proof.
  induction s as [| c t IH]; simpl; [repeat constructor |].
  destruct (Ascii.eqb c sep) eqn:E; [constructor; [reflexivity | exact IH] |].
  destruct (Py.split sep t) as [| p rest]; [repeat constructor; simpl; now rewrite E |].
  inversion IH as [| ? ? Hp Hrest]; subst.
  constructor; [simpl; now rewrite E, Hp | exact Hrest].
Qed.

Lemma last_not_sep (c b : ascii) (s : string) :
  Py.contains c s = false -> Py.last s = Ok b -> Ascii.eqb b c = false.
Proof.
  induction s as [| x t IH]; [discriminate |].
  cbn [Py.contains]. intros H. apply orb_false_iff in H as [Hx Ht].
  destruct t as [| y t'].
  - cbn [Py.last]. now intros [= <-].
  - intros Hl. apply (IH Ht). exact Hl.
Qed.

(** [redact_email] leaves its own results as they are. *)
Lemma redact_email_fixed (email r : string) :
  redact_email email = Ok r -> redact_email r = Ok r.
Proof.
  unfold redact_email at 1.
  pose proof (split_pieces "@" email) as Hpieces.
  destruct (Py.split "@" email) as [| user [| domain [| x rest]]];
    try (intros [= <-]; reflexivity).
  inversion Hpieces as [| ? ? Hu Hrest]; subst.
  inversion Hrest as [| ? ? Hd _]; subst.
  destruct user as [| a u]; [discriminate |].
  destruct (last_cons a u) as [b Hb].
  cbn [Py.first bind]. rewrite Hb. cbn [bind try_except_ValueError].
  intros [= <-].
  pose proof (last_not_sep _ _ _ Hu Hb) as Hbsep.
  cbn [Py.contains] in Hu. apply orb_false_iff in Hu as [Ha _].
  set (n := String.length u - 1).
  assert (Py.repeat_char "*" n ++ String b (String "@" domain)
          = (Py.repeat_char "*" n ++ String b EmptyString) ++ String "@" domain)
    as Hassoc by (now rewrite string_app_assoc).
  rewrite Hassoc.
  change (String a ((Py.repeat_char "*" n ++ String b EmptyString)
                      ++ String "@" domain))
    with ((String a (Py.repeat_char "*" n) ++ String b EmptyString)
            ++ String "@" domain).
  unfold redact_email. rewrite split_at_sep, (split_no_sep _ _ Hd).
  - cbn [Py.first append bind].
    change (String a (Py.repeat_char "*" n ++ String b EmptyString))
      with (String a (Py.repeat_char "*" n) ++ String b EmptyString).
    rewrite last_snoc. cbn [bind try_except_ValueError].
    rewrite length_append. cbn [String.length]. rewrite length_repeat_char.
    replace (S n + 1 - 2) with n by lia.
    now rewrite string_app_assoc.
  - rewrite contains_app. cbn [Py.contains]. rewrite Ha, Hbsep.
    rewrite contains_repeat by reflexivity. reflexivity.
Qed.

Lemma split_ws_clean (s : string) : Forall clean_token (Py.split_ws s).
Proof.
  unfold clean_token.
  induction s as [| c t IH]; cbn [Py.split_ws]; [constructor |].
  destruct (Py.isspace c) eqn:Ec; [assumption |].
  destruct t as [| c' t'].
  - repeat constructor; [discriminate | simpl; now rewrite Ec].
  - destruct (Py.isspace c') eqn:Ec'.
    + constructor; [| exact IH]. split; [discriminate | simpl; now rewrite Ec].
    + destruct (Py.split_ws (String c' t')) as [| tok rest].
      * repeat constructor; [discriminate | simpl; now rewrite Ec].
      * inversion IH as [| ? ? [_ Htok] Hrest]; subst.
        constructor; [| exact Hrest].
        split; [discriminate | simpl; now rewrite Ec, Htok].
Qed.

(** A clean token in front of the end of the text, or of a whitespace
    character, is the first token [split()] cuts off. *)
Lemma split_ws_first (t r : string) :
  clean_token t ->
  (r = EmptyString \/ exists c r', r = String c r' /\ Py.isspace c = true) ->
  Py.split_ws (t ++ r) = t :: Py.split_ws r.
Proof.
  intros [Hne Hws] Hr. induction t as [| c t IH]; [congruence |].
  cbn [has_whitespace] in Hws. apply orb_false_iff in Hws as [Hc Ht].
  cbn [append Py.split_ws]. rewrite Hc.
  destruct t as [| c2 t2].
  - cbn [append]. destruct Hr as [-> | [c' [r' [-> Hc']]]]; [reflexivity |].
    now rewrite Hc'.
  - cbn [append]. cbn [has_whitespace] in Ht.
    pose proof Ht as Ht'. apply orb_false_iff in Ht' as [Hc2 _]. rewrite Hc2.
    cbn [append] in IH. rewrite IH; [reflexivity | discriminate | exact Ht].
Qed.

Lemma split_ws_join (toks : list string) :
  Forall clean_token toks -> Py.split_ws (Py.join " " toks) = toks.
Proof.
  unfold Py.join. induction 1 as [| t rest Ht Hrest IH]; [reflexivity |].
  destruct rest as [| t2 rest2].
  - cbn [String.concat]. rewrite <- (string_app_nil_r t) at 1.
    rewrite (split_ws_first t EmptyString Ht); [reflexivity | now left].
  - change (String.concat " " (t :: t2 :: rest2))
      with (t ++ String " " (String.concat " " (t2 :: rest2))).
    rewrite (split_ws_first t _ Ht).
    + change (Py.split_ws (String " " (String.concat " " (t2 :: rest2))))
        with (Py.split_ws (String.concat " " (t2 :: rest2))).
      now rewrite IH.
    + right. eexists _, _. split; reflexivity.
Qed.

Lemma has_whitespace_stars (n : nat) :
  has_whitespace (Py.repeat_char "*" n) = false.
Proof. induction n; simpl; auto. Qed.

Lemma star_token_clean (t : string) : clean_token t -> clean_token (star_token t).
Proof.
  intros [Hne Hws]. destruct t as [| c t]; [congruence |].
  cbn [has_whitespace] in Hws. apply orb_false_iff in Hws as [Hc _].
  split; [discriminate |]. cbn [star_token has_whitespace].
  now rewrite Hc, has_whitespace_stars.
Qed.

Lemma star_token_fixed (t : string) : star_token (star_token t) = star_token t.
Proof.
  destruct t as [| c t]; [reflexivity |].
  cbn [star_token]. now rewrite length_repeat_char.
Qed.

Lemma star_token_length (t : string) :
  String.length (star_token t) = String.length t.
Proof.
  destruct t as [| c t]; [reflexivity |].
  cbn [star_token String.length]. now rewrite length_repeat_char.
Qed.

(** The tokens of a masked name are the masks of the tokens of the
    name. *)
Lemma masked_name_tokens (name : string) :
  Py.split_ws (Py.join " " (map star_token (Py.split_ws name)))
  = map star_token (Py.split_ws name).
Proof.
  apply split_ws_join. apply Forall_map.
  eapply Forall_impl; [| apply split_ws_clean]. apply star_token_clean.
Qed.

Lemma redact_name_fixed (name r : string) :
  redact_name name = Ok r -> redact_name r = Ok r.
Proof.
  rewrite redact_name_ok. intros [= <-].
  rewrite redact_name_ok, masked_name_tokens, map_map. do 2 f_equal.
  apply map_ext. apply star_token_fixed.
Qed.

(** X13.  [redact_email] is idempotent wherever it returns: applied to
    one of its own results it returns that result again. *)
Theorem X13_redact_email_idempotent (email r : string) :
  redact_email email = Ok r -> redact_email r = Ok r.
Proof. apply redact_email_fixed. Qed.

Lemma X13_redact_email_idempotent_witness :
  redact_email "j******e@example.com" = Ok "j******e@example.com"
  /\ redact_email "aa@b" = Ok "aa@b".
Proof.
  split.
  - apply (X13_redact_email_idempotent "jane.doe@example.com"). reflexivity.
  - apply (X13_redact_email_idempotent "a@b"). reflexivity.
Defined.

(** X14.  [redact_name] keeps the token structure of a name: the
    masked name has one token per token of the name, each of the same
    length and starting with the same character followed by stars
    only; and [redact_name] is idempotent. *)
Theorem X14_redact_name_tokens (name : string) :
  exists r,
    redact_name name = Ok r
    /\ Py.split_ws r = map star_token (Py.split_ws name)
    /\ map String.length (Py.split_ws r) = map String.length (Py.split_ws name)
    /\ redact_name r = Ok r.
Proof.
  exists (Py.join " " (map star_token (Py.split_ws name))).
  split; [apply redact_name_ok |]. split; [apply masked_name_tokens |]. split.
  - rewrite masked_name_tokens, map_map. apply map_ext, star_token_length.
  - apply (redact_name_fixed name), redact_name_ok.
Qed.

(** ** Running [process_record] on its own output *)

Lemma dict_set_same_value {V : Type} (d : dict V) (k : string) (v : V) :
  dict_get d k = Some v -> dict_set d k v = d.
Proof.
  induction d as [| [k0 v0] d IH]; cbn [dict_get dict_set]; [discriminate |].
  destruct (String.eqb k0 k); [now intros [= ->] |].
  intros H. now rewrite (IH H).
Qed.

Lemma redact_value_fixed (k s r : string) :
  In k COMBINATORIAL_PII_KEYS ->
  redact_value k s = Ok r -> redact_value k r = Ok r.
Proof.
  unfold redact_value. simpl. intros [<- | [<- | [<- | [<- | [<- | []]]]]].
  - change (dict_get REDACTION_MAPPING "name") with (Some redact_name).
    apply redact_name_fixed.
  - change (dict_get REDACTION_MAPPING "email") with (Some redact_email).
    apply redact_email_fixed.
  - change (dict_get REDACTION_MAPPING "address")
      with (@None (string -> result string)). now intros [= <-].
  - change (dict_get REDACTION_MAPPING "ip_address")
      with (@None (string -> result string)). now intros [= <-].
  - change (dict_get REDACTION_MAPPING "device_id")
      with (@None (string -> result string)). now intros [= <-].
Qed.

(** When [process_record] has returned, the transform of every marked,
    non-null value has returned. *)
Lemma returned_marked_ok (data out : record) (flag : bool) (k : string) (v : value) :
  process_record data = Ok (out, flag) ->
  marked data k -> dict_get data k = Some v -> is_None v = false ->
  exists r, redact_value k (py_str v) = Ok r /\ dict_get out k = Some (VStr r).
Proof.
  intros Hret Hm Hget Hv.
  destruct (redact_value k (py_str v)) as [r | e] eqn:Er.
  - exists r. split; [reflexivity |].
    apply process_record_ok in Hret as [_ [_ Hout]]. rewrite Hout, Hget.
    apply mem_In in Hm. rewrite Hm. cbn [option_map]. unfold redacted.
    now rewrite Hv, Er.
  - exfalso. rewrite process_record_unfold in Hret.
    destruct (fst (detect data)) eqn:Eflag.
    + destruct (redact_loop_raising_key _ (detect_NoDup data) data k v e Hm Hget Hv Er)
        as [e' He'].
      rewrite He' in Hret. discriminate.
    + apply detect_unflagged in Eflag. unfold marked in Hm. rewrite Eflag in Hm.
      destruct Hm.
Qed.

Lemma qualifies_ext (d1 d2 : record) (k : string) :
  dict_get d1 k = dict_get d2 k -> qualifies d1 k = qualifies d2 k.
Proof. intros H. unfold qualifies. now rewrite H. Qed.

Lemma filter_length_le {A : Type} (f g : A -> bool) (xs : list A) :
  (forall x, In x xs -> f x = true -> g x = true) ->
  List.length (filter f xs) <= List.length (filter g xs).
Proof.
  induction xs as [| x xs IH]; intros H; simpl; [lia |].
  assert (List.length (filter f xs) <= List.length (filter g xs)) as Hle.
  { apply IH. intros y Hy. apply H. now right. }
  destruct (f x) eqn:Ef.
  - rewrite (H x (or_introl eq_refl) Ef). simpl. lia.
  - destruct (g x); simpl; lia.
Qed.

Lemma redact_loop_fixed (ks : list string) (d : record) :
  (forall k, In k ks -> redact_step d k = Ok d) -> redact_loop ks d = Ok d.
Proof.
  induction ks as [| k ks IH]; intros H; cbn [redact_loop]; [reflexivity |].
  rewrite (H k) by now left. cbn [bind]. apply IH. intros k' Hk'. apply H. now right.
Qed.

(** A key that qualifies in the returned record qualified in the
    input. *)
Lemma qualifies_out (data out : record) (flag : bool) (k : string) :
  NoDup (keys data) ->
  process_record data = Ok (out, flag) ->
  qualifies out k = true -> qualifies data k = true.
Proof.
  intros Hnd Hret Hq.
  destruct (mem k (snd (detect data))) eqn:Hm.
  - apply mem_In in Hm.
    apply (marked_cases data k Hnd) in Hm as [[Hs _] | [_ [_ Hf]]].
    + unfold qualifies in Hq. apply andb_true_iff in Hq as [Hc _].
      apply mem_In in Hc. destruct (category_lists_disjoint k Hs Hc).
    + now apply found_In in Hf.
  - apply mem_false in Hm.
    now rewrite <- (qualifies_ext out data k (frame_when_returns data out flag k Hret Hm)).
Qed.

Lemma found_out_le (data out : record) (flag : bool) :
  NoDup (keys data) ->
  process_record data = Ok (out, flag) ->
  List.length (found_combinatorial_keys out)
  <= List.length (found_combinatorial_keys data).
Proof.
  intros Hnd Hret. rewrite !found_combinatorial_keys_filter.
  pose proof Hret as Hret'. apply process_record_ok in Hret' as [_ [-> _]].
  apply filter_length_le. intros k _. now apply (qualifies_out data out flag).
Qed.

(** X15.  [process_record] is idempotent on records: run on a record it
    has returned, it returns that record again, unchanged.  The second
    flag is true only if at least two combinatorial keys still qualify,
    and then the first flag was true as well. *)
Theorem X15_second_run (data out : record) (flag : bool) :
  NoDup (keys data) ->
  process_record data = Ok (out, flag) ->
  exists flag',
    process_record out = Ok (out, flag')
    /\ flag' = Nat.leb 2 (List.length (found_combinatorial_keys out))
    /\ (flag' = true -> flag = true).
Proof.
  intros Hnd Hret.
  pose proof (output_has_no_match data out flag Hnd Hret) as Hnone.
  pose proof (found_out_le data out flag Hnd Hret) as Hle.
  assert (fst (detect out)
          = Nat.leb 2 (List.length (found_combinatorial_keys out))) as Hflag'.
  { now rewrite detect_flag, Hnone. }
  exists (fst (detect out)). split; [| split; [exact Hflag' |]].
  - rewrite process_record_unfold.
    destruct (fst (detect out)) eqn:Eflag; [| reflexivity].
    rewrite redact_loop_fixed; [reflexivity |].
    intros k Hk. apply detect_keys in Hk as [Hs | [Hlen Hf]].
    { rewrite standalone_pass_none in Hs; [destruct Hs |].
      now rewrite standalone_pass_flag. }
    assert (marked data k) as Hm.
    { apply detect_keys. right. split; [lia |]. apply found_In.
      apply found_In in Hf as [Hin Hq]. split.
      - apply process_record_ok in Hret as [_ [Hkeys _]]. now rewrite <- Hkeys.
      - now apply (qualifies_out data out flag). }
    pose proof (found_combinatorial out k Hf) as Hc.
    destruct (keys_dict_get data k) as [v Hget].
    { apply detect_keys in Hm as [Hs | [_ Hf']].
      - apply standalone_pass_keys in Hs as [v [Hin _]].
        change k with (fst (k, v)). now apply in_map.
      - now apply found_In in Hf'. }
    rewrite redact_step_dispatch.
    destruct (is_None v) eqn:Ev.
    + apply process_record_ok in Hret as [_ [_ Hout]].
      rewrite Hout, Hget. apply mem_In in Hm. rewrite Hm.
      cbn [option_map]. unfold redacted. now rewrite Ev, Ev.
    + destruct (returned_marked_ok data out flag k v Hret Hm Hget Ev) as [r [Hr Hout]].
      rewrite Hout. cbn [is_None py_str].
      rewrite (redact_value_fixed k _ r Hc Hr). cbn [bind].
      now rewrite (dict_set_same_value out k (VStr r) Hout).
  - intros Htrue. rewrite Htrue in Hflag'. symmetry in Hflag'.
    apply Nat.leb_le in Hflag'.
    apply process_record_ok in Hret as [-> _]. rewrite detect_flag.
    assert (Nat.leb 2 (List.length (found_combinatorial_keys data)) = true) as ->
      by (apply Nat.leb_le; lia).
    apply orb_true_r.
Qed.

Lemma X15_second_run_witness :
  exists flag',
    process_record
      [("name", VStr "M***** R**"); ("address", VStr "[REDACTED_ADDRESS]")]
    = Ok ([("name", VStr "M***** R**"); ("address", VStr "[REDACTED_ADDRESS]")],
          flag')
    /\ flag' = Nat.leb 2 (List.length (found_combinatorial_keys
          [("name", VStr "M***** R**"); ("address", VStr "[REDACTED_ADDRESS]")]))
    /\ (flag' = true -> true = true).
Proof.
  apply (X15_second_run madhav_rao).
  - repeat constructor; simpl; intuition discriminate.
  - reflexivity.
Defined.

(** ** Edge behaviour of the transforms *)

Lemma split_length (sep : ascii) (s : string) :
  List.length (Py.split sep s) = S (count_char sep s).
Proof.
  induction s as [| c t IH]; simpl; [reflexivity |].
  destruct (Ascii.eqb c sep); simpl; [now rewrite IH |].
  destruct (Py.split sep t) as [| p rest]; simpl in *; lia.
Qed.

(** X16.  [redact_email] by the number of ['@']: with none, or with two
    or more, the result is the literal [[REDACTED_EMAIL]]; with a
    local part of a single character that character is written twice,
    so the result is one character longer than the input and shows the
    whole local part. *)
Theorem X16_redact_email_edges :
  (forall email : string,
      count_char "@" email <> 1 -> redact_email email = Ok "[REDACTED_EMAIL]")
  /\ (forall (a : ascii) (domain : string),
         Ascii.eqb a "@" = false -> Py.contains "@" domain = false ->
         redact_email (String a (String "@" domain))
         = Ok (String a (String a (String "@" domain)))).
Proof.
  split.
  - intros email Hcount. pose proof (split_length "@" email) as Hlen.
    unfold redact_email.
    destruct (Py.split "@" email) as [| user [| domain [| x rest]]];
      try reflexivity.
    simpl in Hlen. lia.
  - intros a domain Ha Hd. unfold redact_email. cbn [Py.split].
    rewrite Ha. cbn [Py.split]. rewrite Ascii.eqb_refl, (split_no_sep _ _ Hd).
    reflexivity.
Qed.

Lemma X16_redact_email_edges_witness :
  redact_email "a@b@c" = Ok "[REDACTED_EMAIL]"
  /\ redact_email "x@bank" = Ok "xx@bank".
Proof.
  destruct X16_redact_email_edges as [H1 H2]. split.
  - apply H1. simpl. lia.
  - apply (H2 "x"%char "bank"); reflexivity.
Defined.

Lemma length_take (n : nat) (s : string) :
  String.length (Py.take n s) = Nat.min n (String.length s).
Proof.
  revert s. induction n as [| n IH]; intros [| c t]; simpl; auto.
Qed.

Lemma length_drop (n : nat) (s : string) :
  String.length (Py.drop n s) = String.length s - n.
Proof.
  revert s. induction n as [| n IH]; intros [| c t]; simpl; auto.
Qed.

Lemma length_suffix (n : nat) (s : string) :
  String.length (Py.suffix n s) = Nat.min n (String.length s).
Proof. unfold Py.suffix. rewrite length_drop. lia. Qed.

(** X17.  The phone and aadhar masks have a fixed width, whatever the
    length of the value: [redact_phone] returns six X between at most
    two characters on either side, [redact_aadhar] eight X before at
    most four characters.  On a value of four characters or fewer
    [redact_aadhar] therefore hides nothing: the whole value follows
    the X. *)
Theorem X17_fixed_width_masks (s : string) :
  String.length (redact_phone s) = 6 + 2 * Nat.min 2 (String.length s)
  /\ String.length (redact_aadhar s) = 8 + Nat.min 4 (String.length s)
  /\ (String.length s <= 4 -> redact_aadhar s = "XXXXXXXX" ++ s).
Proof.
  split; [| split].
  - unfold redact_phone. rewrite !length_append, length_take, length_suffix.
    simpl. lia.
  - unfold redact_aadhar. rewrite length_append, length_suffix. reflexivity.
  - intros Hlen. unfold redact_aadhar, Py.suffix.
    replace (String.length s - 4) with 0 by lia. reflexivity.
Qed.

Lemma X17_fixed_width_masks_witness : redact_aadhar "1234" = "XXXXXXXX1234".
Proof.
  apply (proj2 (proj2 (X17_fixed_width_masks "1234"))). simpl. lia.
Defined.

(** ** The UPI pattern *)

Lemma upto_In (f : list Re.state -> list Re.state) (e : nat)
  (sts : list Re.state) (x : Re.state) :
  In x (Re.upto e f sts) <-> exists i, i <= e /\ In x (Re.times i f sts).
Proof.
  revert sts. induction e as [| e IH]; intros sts; cbn [Re.upto].
  - rewrite app_nil_r. split.
    + intros H. exists 0. split; [lia | exact H].
    + intros [i [Hi H]]. assert (i = 0) as -> by lia. exact H.
  - rewrite in_app_iff, IH. split.
    + intros [H | [i [Hi H]]].
      * exists 0. split; [lia | exact H].
      * exists (S i). split; [lia | exact H].
    + intros [[| i] [Hi H]]; [now left |].
      right. exists i. split; [lia | exact H].
Qed.

Lemma times_add {A : Type} (f : A -> A) (i j : nat) (x : A) :
  Re.times i f (Re.times j f x) = Re.times (j + i) f x.
Proof.
  revert x. induction j as [| j IH]; intros x; [reflexivity |].
  cbn [Re.times Nat.add]. apply IH.
Qed.

Lemma last_or_cons (prev : option ascii) (c : ascii) (pre : string) :
  last_or prev (String c pre) = last_or (Some c) pre.
Proof.
  unfold last_or. destruct pre as [| c' pre']; [reflexivity |].
  change (Py.last (String c (String c' pre'))) with (Py.last (String c' pre')).
  destruct (last_cons c' pre') as [b ->]. reflexivity.
Qed.

Lemma eat_last (p : ascii -> bool) (n : nat) (prev : option ascii) (s : string)
  (st' : Re.state) :
  eat p n (prev, s) = Some st' ->
  exists pre, s = pre ++ snd st' /\ String.length pre = n
              /\ all_chars p pre = true /\ fst st' = last_or prev pre.
Proof.
  revert prev s. induction n as [| n IH]; intros prev s; cbn [eat snd].
  - intros [= <-]. exists EmptyString. repeat split.
  - destruct s as [| c t]; [discriminate |].
    destruct (p c) eqn:Ep; [| discriminate].
    intros H. apply IH in H as [pre [Hs [Hl [Ha Hlast]]]].
    exists (String c pre). cbn [String.length all_chars append].
    rewrite Ep, Ha, Hl, <- Hs. repeat split.
    rewrite Hlast. symmetry. apply last_or_cons.
Qed.

Lemma eat_all (p : ascii -> bool) (pre rest : string) (prev : option ascii) :
  all_chars p pre = true ->
  eat p (String.length pre) (prev, pre ++ rest) = Some (last_or prev pre, rest).
Proof.
  revert prev. induction pre as [| c t IH]; intros prev; cbn [all_chars].
  - reflexivity.
  - intros H. apply andb_true_iff in H as [Hc Ht].
    cbn [String.length eat snd append]. rewrite Hc, (IH (Some c) Ht).
    now rewrite last_or_cons.
Qed.

(** [[class]+]: the positions after one or more characters of the
    class. *)
Lemma run_plus_class (p : ascii -> bool) (st x : Re.state) :
  In x (Re.run (Re.plus (Re.Class p)) st)
  <-> exists n, 0 < n /\ eat p n st = Some x.
Proof.
  change (Re.run (Re.plus (Re.Class p)) st)
    with (Re.upto (String.length (snd st)) (flat_map (Re.run (Re.Class p)))
            (Re.times 1 (flat_map (Re.run (Re.Class p))) [st])).
  rewrite upto_In. split.
  - intros [i [_ H]]. rewrite times_add, times_class in H.
    exists (1 + i). split; [lia |].
    destruct (eat p (1 + i) st); [| destruct H].
    destruct H as [<- | []]. reflexivity.
  - intros [n [Hn H]]. exists (n - 1). split.
    + destruct st as [prev s]. apply eat_last in H as [pre [Hs [Hl _]]].
      cbn [snd]. rewrite Hs, length_append. lia.
    + rewrite times_add, times_class.
      replace (1 + (n - 1)) with n by lia. rewrite H. now left.
Qed.

Lemma run_literal (c : ascii) (st x : Re.state) :
  In x (Re.run (Re.literal c) st)
  <-> exists t, snd st = String c t /\ x = (Some c, t).
Proof.
  unfold Re.literal. cbn [Re.run]. destruct (snd st) as [| a t].
  - split; [intros [] | intros [t [H _]]; discriminate].
  - destruct (Ascii.eqb_spec c a) as [<- | Hne].
    + split; [intros [<- | []]; eauto | intros [t' [[= <-] ->]]; now left].
    + split; [intros [] | intros [t' [[= ->] _]]; congruence].
Qed.

Lemma word_last_app (a b : string) :
  b <> EmptyString -> word_last (a ++ b) = word_last b.
Proof.
  intros Hb. unfold word_last. f_equal.
  induction a as [| c a IH]; [reflexivity |].
  cbn [append Py.last]. destruct (a ++ b) eqn:E; [| exact IH].
  destruct a; [simpl in E; congruence | discriminate].
Qed.

(** X18.  A string is a full match of the UPI pattern exactly when it
    is [local@domain] with a local part of characters of
    [[a-zA-Z0-9._%+-]] that starts with a word character and a domain
    of characters of [[a-zA-Z0-9.-]] that ends with one; in particular
    both parts are non-empty and there is a single ['@']. *)
Theorem X18_upi_pattern (s : string) :
  Re.fullmatch upi_id_pattern s = true
  <-> exists u d,
        s = u ++ String "@" d
        /\ all_chars local_class u = true /\ word_first u = true
        /\ all_chars domain_class d = true /\ word_last d = true.
Proof.
  unfold Re.fullmatch, upi_id_pattern. rewrite existsb_exists. split.
  - intros [x [Hin Hend]].
    rewrite run_cat, run_boundary in Hin. apply in_flat_map in Hin as [st0 [H0 Hin]].
    destruct (Re.at_boundary (None, s)) eqn:Hb0; [| destruct H0].
    destruct H0 as [<- | []].
    rewrite run_cat in Hin. apply in_flat_map in Hin as [st1 [H1 Hin]].
    apply run_plus_class in H1 as [n [Hn H1]].
    apply eat_last in H1 as [u [Hs [Hlu [Hau _]]]].
    rewrite run_cat in Hin. apply in_flat_map in Hin as [st2 [H2 Hin]].
    apply run_literal in H2 as [t [Ht ->]].
    rewrite run_cat in Hin. apply in_flat_map in Hin as [st3 [H3 Hin]].
    apply run_plus_class in H3 as [m [Hm H3]].
    apply eat_last in H3 as [d [Hd [Hld [Had Hlast]]]].
    rewrite run_boundary in Hin.
    destruct (Re.at_boundary st3) eqn:Hb3; [| destruct Hin].
    destruct Hin as [<- | []].
    destruct st3 as [prev3 rest3]. cbn [fst snd] in *.
    unfold Re.at_end in Hend. cbn [snd] in Hend.
    destruct rest3; [| discriminate]. rewrite string_app_nil_r in Hd. subst t.
    exists u, d. rewrite Hs, Ht. repeat split; try assumption.
    + destruct u as [| c u']; [simpl in Hlu; lia |].
      rewrite Hs in Hb0. exact Hb0.
    + unfold Re.at_boundary, Re.word_before, Re.word_after in Hb3.
      cbn [fst snd] in Hb3. rewrite Hlast in Hb3. unfold last_or in Hb3.
      unfold word_last. destruct d as [| c d']; [simpl in Hld; lia |].
      destruct (last_cons c d') as [b Hb]. rewrite Hb in *.
      now rewrite xorb_false_r in Hb3.
  - intros [u [d [-> [Hau [Hwu [Had Hwd]]]]]].
    destruct u as [| c u']; [discriminate |]. cbn [word_first] in Hwu.
    exists (last_or (Some "@"%char) d, EmptyString). split; [| reflexivity].
    rewrite run_cat, run_boundary.
    unfold Re.at_boundary at 1, Re.word_before, Re.word_after.
    cbn [fst snd append]. rewrite Hwu. cbn [xorb flat_map]. rewrite app_nil_r.
    rewrite run_cat. apply in_flat_map.
    exists (last_or None (String c u'), String "@" d). split.
    { apply run_plus_class. exists (String.length (String c u')). split.
      - simpl. lia.
      - apply (eat_all local_class (String c u') (String "@" d) None Hau). }
    rewrite run_cat. apply in_flat_map. exists (Some "@"%char, d). split.
    { apply run_literal. exists d. auto. }
    rewrite run_cat. apply in_flat_map.
    assert (d <> EmptyString) as Hd by (intros ->; discriminate).
    exists (last_or (Some "@"%char) d, EmptyString). split.
    { apply run_plus_class. exists (String.length d). split.
      - destruct d; [congruence | simpl; lia].
      - rewrite <- (string_app_nil_r d) at 2.
        apply (eat_all domain_class d EmptyString _ Had). }
    rewrite run_boundary.
    unfold Re.at_boundary, Re.word_before, Re.word_after, last_or. cbn [fst snd].
    unfold word_last in Hwd. destruct (Py.last d) as [b | e]; [| discriminate].
    rewrite Hwd. now left.
Qed.

(** ** Where [redact_email] fails *)

(** X19.  [redact_email] raises on exactly the strings that are an
    ['@'] followed by an ['@']-free rest, the ones whose local part is
    empty, and what it raises there is the [IndexError] of [user[0]];
    on every other string it returns. *)
Theorem X19_redact_email_failure (email : string) :
  (forall e, redact_email email = Raise e
             <-> e = IndexError /\ empty_local_part email = true)
  /\ (empty_local_part email = false -> exists r, redact_email email = Ok r).
Proof.
  split; [intros e; apply redact_email_raises_iff | apply redact_email_returns].
Qed.

Lemma X19_redact_email_failure_witness :
  exists r, redact_email "user@@bank" = Ok r.
Proof.
  apply (proj2 (X19_redact_email_failure "user@@bank")). reflexivity.
Defined.

(** * Properties of [main] *)

Section MainProperties.

Variable json_loads : string -> load_outcome.
Variable json_dumps : record -> string.

Lemma main_loop_cons (row : csv_row) (rest : list csv_row) :
  main_loop json_loads json_dumps (row :: rest)
  = match main_turn json_loads json_dumps row with
    | Continue => main_loop json_loads json_dumps rest
    | Written l => (l :: fst (main_loop json_loads json_dumps rest),
                    snd (main_loop json_loads json_dumps rest))
    | Aborted => ([], Exit1)
    end.
Proof.
  cbn [main_loop]. destruct (main_turn json_loads json_dumps row); try reflexivity.
  now destruct (main_loop json_loads json_dumps rest).
Qed.

(** The loop over [pre ++ post]: the loop over [pre], and, unless that
    one was left by an exception, the loop over [post] after it. *)
Lemma main_loop_app (pre post : list csv_row) :
  main_loop json_loads json_dumps (pre ++ post)%list
  = match snd (main_loop json_loads json_dumps pre) with
    | Returned => ((fst (main_loop json_loads json_dumps pre)
                    ++ fst (main_loop json_loads json_dumps post))%list,
                   snd (main_loop json_loads json_dumps post))
    | Exit1 => main_loop json_loads json_dumps pre
    end.
Proof.
  induction pre as [| row pre IH].
  - cbn [app main_loop fst snd]. now destruct (main_loop json_loads json_dumps post).
  - change ((row :: pre) ++ post)%list with (row :: (pre ++ post)%list).
    rewrite !main_loop_cons, IH.
    destruct (main_turn json_loads json_dumps row); try reflexivity.
    cbn [fst snd]. destruct (main_loop json_loads json_dumps pre) as [w [|]];
      reflexivity.
Qed.

Lemma main_some (rows : list csv_row) :
  main json_loads json_dumps (Some rows)
  = (Header :: fst (main_loop json_loads json_dumps rows),
     snd (main_loop json_loads json_dumps rows)).
Proof. cbn [main]. now destruct (main_loop json_loads json_dumps rows). Qed.



(** X20.  A row whose [data_json] cell does not decode is skipped and
    nothing else: the output file and the way [main] ends are those of
    the same input without that row. *)
Theorem X20_undecodable_row_skipped (pre post : list csv_row) (row : csv_row)
  (text : string) :
  row_get row "data_json" "{}" = Some text ->
  json_loads text = JSONDecodeError ->
  main json_loads json_dumps (Some (pre ++ row :: post)%list)
  = main json_loads json_dumps (Some (pre ++ post)%list).
Proof.
  intros Hcell Hload. rewrite !main_some, !main_loop_app, main_loop_cons.
  unfold main_turn. now rewrite Hcell, Hload.
Qed.

(** X21.  A row whose record has at least two qualifying combinatorial
    keys and a non-null [email] with an empty local part ends the run:
    [main] leaves through [sys.exit(1)], and the output file holds the
    rows written before that row and none of those after it. *)
Theorem X21_bad_email_stops_run (pre post : list csv_row) (row : csv_row)
  (text : string) (data : record) (v : value) (written : list line) :
  main_loop json_loads json_dumps pre = (written, Returned) ->
  row_get row "data_json" "{}" = Some text ->
  json_loads text = Loaded data ->
  NoDup (keys data) ->
  2 <= List.length (found_combinatorial_keys data) ->
  dict_get data "email" = Some v -> is_None v = false ->
  empty_local_part (py_str v) = true ->
  main json_loads json_dumps (Some (pre ++ row :: post)%list)
  = (Header :: written, Exit1).
Proof.
  intros Hpre Hcell Hload Hnd Hlen Hget Hv Hbad.
  assert (exists e, process_record data = Raise e) as [e He].
  { apply (process_record_raises_iff data Hnd). split.
    - unfold email_redactable. now rewrite Hget, Hv, Hbad.
    - apply detect_keys. right. split; [exact Hlen |].
      apply found_In. split; [eapply dict_get_keys, Hget |].
      apply (qualifies_unfiltered data "email" v); [simpl; auto | exact Hget]. }
  rewrite main_some, main_loop_app, Hpre, main_loop_cons. cbn [fst snd].
  unfold main_turn. rewrite Hcell, Hload, He. cbn [fst snd].
  now rewrite app_nil_r.
Qed.


End MainProperties.

Lemma X20_undecodable_row_skipped_witness :
  main sample_loads sample_dumps
    (Some ([phone_row] ++ garbled_row :: [phone_row])%list)
  = main sample_loads sample_dumps (Some ([phone_row] ++ [phone_row])%list).
Proof.
  apply (X20_undecodable_row_skipped sample_loads sample_dumps
           [phone_row] [phone_row] garbled_row "{phone"); reflexivity.
Defined.

Lemma X21_bad_email_stops_run_witness :
  main sample_loads sample_dumps
    (Some ([phone_row] ++ bad_email_row :: [phone_row])%list)
  = ([Header; Row (Some "1") "98XXXXXX10" true], Exit1).
Proof.
  apply (X21_bad_email_stops_run sample_loads sample_dumps
           [phone_row] [phone_row] bad_email_row "{bad email}" bad_email
           (VStr "@example.com")); try reflexivity.
  repeat constructor; simpl; intuition discriminate.
Defined.

